(** * detect_ethercat_interface.py: interface source and EtherCAT probe

    A shallow embedding of [src/detect_ethercat_interface.py].

    - [get_network_interfaces] is a function of what the two subprocess
      invocations do (raise, or complete with a return code and a standard
      output text).
    - [detect_ethercat_interface] runs against an arbitrary pysoem stack, given
      as state-passing operations on a world; every call into the stack may
      return or raise.  The run is instrumented with the list of the calls made
      and of the lines printed, each tagged with the position of the candidate
      in the list.
    - [main] maps the probe's return value to the exit status.

    Scope of the model.  Exceptions are instances of Python's [Exception]; the
    exits and signals that derive from [BaseException] only (KeyboardInterrupt,
    SystemExit) are not modelled.  A text is a string of code points below
    256, one character each; on such a text [lower] and [strip] do what
    Python's do (the letters A-Z and the capital letters of Latin-1; the white
    space 9-13, 28-32, U+0085 and U+00A0).  Calls into the stack can raise,
    and so can lines 81-87, which print the check mark and format the slave
    attributes; the other [print] calls are taken not to raise.  A
    constructed [pysoem.Master] object is truthy (the class defines neither
    [__bool__] nor [__len__]).
    Of the printed lines the log keeps those that tell the outcome of an
    attempt or of the run; the banners of lines 58-62 and the report of
    [main] are left out. *)

From Stdlib Require Import List String Ascii ZArith Bool Arith Lia.
Import ListNotations.

Open Scope string_scope.
Open Scope list_scope.

(** ** Python values *)

Inductive exn : Type :=
| Exception (msg : string).

Inductive res (A : Type) : Type :=
| Returns (a : A)
| Raises (e : exn).

Arguments Returns {A} a.
Arguments Raises {A} e.

(** ** The string methods used by the source *)

Module PyStr.

(** [s.startswith(prefix)] *)
Definition startswith (s prefix : string) : bool := String.prefix prefix s.

(** [sub in s] *)
Fixpoint contains (sub s : string) : bool :=
  match s with
  | EmptyString => String.prefix sub EmptyString
  | String _ s' => String.prefix sub s || contains sub s'
  end.

(** [s.split(sep)] for a one-character separator: never an empty list. *)
Fixpoint split (sep : ascii) (s : string) : list string :=
  match s with
  | EmptyString => [EmptyString]
  | String c s' =>
      if Ascii.eqb c sep then EmptyString :: split sep s'
      else match split sep s' with
           | [] => [String c EmptyString]
           | h :: t => String c h :: t
           end
  end.

Definition lower_char (c : ascii) : ascii :=
  let n := nat_of_ascii c in
  if (((65 <=? n) && (n <=? 90))
      || ((192 <=? n) && (n <=? 222) && negb (n =? 215)))%nat
  then ascii_of_nat (n + 32) else c.

(** [s.lower()] *)
Fixpoint lower (s : string) : string :=
  match s with
  | EmptyString => EmptyString
  | String c s' => String (lower_char c) (lower s')
  end.

(** White space of [str.strip()] below code point 256:
    tab, line feed, vertical tab, form feed, carriage return,
    the four separators 28..31, the space, the next-line control U+0085
    and the no-break space U+00A0. *)
Definition isspace (c : ascii) : bool :=
  let n := nat_of_ascii c in
  (((9 <=? n) && (n <=? 13)) || ((28 <=? n) && (n <=? 32))
   || (n =? 133) || (n =? 160))%nat.

Fixpoint lstrip (s : string) : string :=
  match s with
  | EmptyString => EmptyString
  | String c s' => if isspace c then lstrip s' else s
  end.

Fixpoint rstrip (s : string) : string :=
  match s with
  | EmptyString => EmptyString
  | String c s' =>
      match rstrip s' with
      | EmptyString => if isspace c then EmptyString else String c EmptyString
      | r => String c r
      end
  end.

(** [s.strip()] *)
Definition strip (s : string) : string := rstrip (lstrip s).

(** Truth value of a string: the empty string is false. *)
Definition truthy (s : string) : bool :=
  match s with
  | EmptyString => false
  | String _ _ => true
  end.

End PyStr.

Definition newline : ascii := ascii_of_nat 10.
Definition colon : ascii := ascii_of_nat 58.

(** ** get_network_interfaces (lines 12-52) *)

(** What [subprocess.run(..., capture_output=True, text=True, check=False)]
    hands back when it returns. *)
Record CompletedProcess : Type := {
  returncode : Z;
  stdout : string
}.

(** The host platform as the function sees it: each of the two commands
    either cannot be run (the call raises) or completes. *)
Record Platform : Type := {
  run_ip_link_show : res CompletedProcess;
  run_ifconfig : res CompletedProcess
}.

(** Lines 25-32: the loop over the lines of [ip link show]. *)
Fixpoint parse_ip_link (lines : list string) (interfaces : list string)
  : list string :=
  match lines with
  | [] => interfaces
  | line :: rest =>
      if PyStr.contains ":" line && PyStr.contains "state" (PyStr.lower line)
      then
        let parts := PyStr.split colon line in
        if (2 <=? List.length parts)%nat then
          let iface := PyStr.strip (nth 1 parts "") in
          if negb (PyStr.startswith iface "lo")
             && negb (PyStr.startswith iface "veth")
          then parse_ip_link rest (interfaces ++ [iface])
          else parse_ip_link rest interfaces
        else parse_ip_link rest interfaces
      else parse_ip_link rest interfaces
  end.

(** Lines 40-45: the loop over the lines of [ifconfig]. *)
Fixpoint parse_ifconfig (lines : list string) (interfaces : list string)
  : list string :=
  match lines with
  | [] => interfaces
  | line :: rest =>
      if PyStr.contains ":" line && PyStr.contains "flags=" line
      then
        let iface := nth 0 (PyStr.split colon line) "" in
        if PyStr.startswith iface "en" || PyStr.startswith iface "eth"
        then parse_ifconfig rest (interfaces ++ [iface])
        else parse_ifconfig rest interfaces
      else parse_ifconfig rest interfaces
  end.

(** Line 50. *)
Definition fallback_interfaces : list string :=
  ["eth0"; "eth1"; "enp0s3"; "en0"; "en9"].

Definition get_network_interfaces (os : Platform) : list string :=
  match run_ip_link_show os with
  | Raises _ => fallback_interfaces
  | Returns result =>
      if (returncode result =? 0)%Z
      then parse_ip_link (PyStr.split newline (stdout result)) []
      else
        match run_ifconfig os with
        | Raises _ => fallback_interfaces
        | Returns result =>
            parse_ifconfig (PyStr.split newline (stdout result)) []
        end
  end.

(** ** The pysoem master as a capability surface *)

Module Slave.
(** The attributes of a slave that lines 85-87 print. *)
Record t : Type := {
  name : string;
  man : Z;
  id : Z
}.
End Slave.

(** The stack over a world of its own.  [Master] is the constructor
    [pysoem.Master()]; [open], [config_init], [close] and [slaves] are the
    methods and the attribute of the object it returns.  [print_found] is
    lines 81-87 on the terminal, the line of the count with its check mark
    and three lines for each slave: it raises when the terminal cannot encode
    the check mark or an attribute of a slave cannot be read or formatted. *)
Record pysoem (World MasterObj : Type) : Type := {
  Master : World -> res MasterObj * World;
  open : MasterObj -> string -> World -> res unit * World;
  config_init : MasterObj -> World -> res Z * World;
  slaves : MasterObj -> World -> list Slave.t;
  print_found : Z -> list Slave.t -> World -> res unit * World;
  close : MasterObj -> World -> res unit * World
}.

Arguments Master {World MasterObj} _ _.
Arguments open {World MasterObj} _ _ _ _.
Arguments config_init {World MasterObj} _ _ _.
Arguments slaves {World MasterObj} _ _ _.
Arguments print_found {World MasterObj} _ _ _ _.
Arguments close {World MasterObj} _ _ _.

(** ** The instrumentation of a run *)

(** The three places where the source calls [master.close()]. *)
Inductive site : Type :=
| CloseOnFound      (* line 90 *)
| CloseOnNoSlaves   (* line 94 *)
| CloseInHandler.   (* line 100 *)

(** What a run does, in order: the calls into the stack with their outcome and
    the lines printed.  [pos] is the position of the candidate in the list. *)
Inductive event : Type :=
| Trying (pos : nat) (interface : string)                       (* line 70 *)
| CallMaster (pos : nat) (r : res unit)                         (* line 74 *)
| CallOpen (pos : nat) (interface : string) (r : res unit)      (* line 75 *)
| CallConfigInit (pos : nat) (r : res Z)                        (* line 78 *)
| Found (pos : nat) (slave_count : Z) (info : list Slave.t)     (* lines 81-87 *)
| NoSlaves (pos : nat)                                          (* line 93 *)
| Error (pos : nat) (e : exn)                                   (* line 97 *)
| CallClose (pos : nat) (at_site : site) (r : res unit)         (* 90, 94, 100 *)
| NoInterfaces                                                  (* line 65 *)
| NoneFound                                                     (* line 104 *)
| FoundRaised (pos : nat) (slave_count : Z) (e : exn).          (* lines 81-87 *)

Definition outcome {A : Type} (r : res A) : res unit :=
  match r with
  | Returns _ => Returns tt
  | Raises e => Raises e
  end.

(** ** detect_ethercat_interface (lines 55-105) *)

Section Probe.

Variables World MasterObj : Type.
Variable stack : pysoem World MasterObj.

(** The state a statement of the function runs in: the world of the stack
    and the local variable [master]. *)
Record Frame : Type := {
  world : World;
  master : option MasterObj
}.

(** A statement returns or raises, leaves a frame and appends to the
    instrumentation. *)
Definition Py (A : Type) : Type := Frame -> res A * Frame * list event.

Definition ret {A : Type} (a : A) : Py A := fun f => (Returns a, f, []).

Definition bind {A B : Type} (m : Py A) (k : A -> Py B) : Py B :=
  fun f =>
    match m f with
    | (Returns a, f1, t1) =>
        match k a f1 with
        | (r, f2, t2) => (r, f2, t1 ++ t2)
        end
    | (Raises e, f1, t1) => (Raises e, f1, t1)
    end.

(** [try: body except Exception as e: handler e] *)
Definition try_except {A : Type} (body : Py A) (handler : exn -> Py A)
  : Py A :=
  fun f =>
    match body f with
    | (Returns a, f1, t1) => (Returns a, f1, t1)
    | (Raises e, f1, t1) =>
        match handler e f1 with
        | (r, f2, t2) => (r, f2, t1 ++ t2)
        end
    end.

Definition print (ev : event) : Py unit := fun f => (Returns tt, f, [ev]).

Definition assign_master (m : option MasterObj) : Py unit :=
  fun f => (Returns tt, {| world := world f; master := m |}, []).

Definition read_master : Py (option MasterObj) :=
  fun f => (Returns (master f), f, []).

(** A call into the stack, logged with its outcome. *)
Definition call {A : Type} (op : World -> res A * World)
           (log : res A -> event) : Py A :=
  fun f =>
    match op (world f) with
    | (r, w) => (r, {| world := w; master := master f |}, [log r])
    end.

Definition attribute {A : Type} (get : World -> A) : Py A :=
  fun f => (Returns (get (world f)), f, []).

Local Notation "x <- m ;; k" := (bind m (fun x => k))
  (at level 61, m at next level, right associativity).
Local Notation "m ;; k" := (bind m (fun _ => k))
  (at level 61, right associativity).

(** Lines 74-94, the body of the [try].  [Some interface] is the
    [return interface] of line 91; [None] is falling out of the [try]. *)
Definition try_body (pos : nat) (interface : string) : Py (option string) :=
  m <- call (Master stack) (fun r => CallMaster pos (outcome r));;
  assign_master (Some m);;
  call (open stack m interface) (CallOpen pos interface);;
  slave_count <- call (config_init stack m) (CallConfigInit pos);;
  if (slave_count >? 0)%Z then
    info <- attribute (slaves stack m);;
    call (print_found stack slave_count info)
         (fun r => match r with
                   | Returns _ => Found pos slave_count info
                   | Raises e => FoundRaised pos slave_count e
                   end);;
    call (close stack m) (CallClose pos CloseOnFound);;
    ret (Some interface)
  else
    print (NoSlaves pos);;
    call (close stack m) (CallClose pos CloseOnNoSlaves);;
    ret None.

(** Lines 96-102, the handler.  [if master:] holds exactly when the
    variable is bound to an object. *)
Definition except_handler (pos : nat) (e : exn) : Py (option string) :=
  print (Error pos e);;
  mv <- read_master;;
  match mv with
  | Some m =>
      try_except (call (close stack m) (CallClose pos CloseInHandler))
                 (fun _ => ret tt);;
      ret None
  | None => ret None
  end.

(** Lines 70-102, one turn of the loop. *)
Definition attempt (pos : nat) (interface : string) : Py (option string) :=
  print (Trying pos interface);;
  assign_master None;;
  try_except (try_body pos interface) (except_handler pos).

(** Lines 69-105, the loop and what follows it. *)
Fixpoint for_interfaces (pos : nat) (interfaces : list string)
  : Py (option string) :=
  match interfaces with
  | [] => print NoneFound;; ret None
  | interface :: rest =>
      returned <- attempt pos interface;;
      match returned with
      | Some i => ret (Some i)
      | None => for_interfaces (S pos) rest
      end
  end.

(** Lines 64-105: the probe on a candidate list. *)
Definition probe (interfaces : list string) : Py (option string) :=
  match interfaces with
  | [] => print NoInterfaces;; ret None
  | _ :: _ => for_interfaces 0 interfaces
  end.

Definition detect_ethercat_interface (os : Platform) : Py (option string) :=
  probe (get_network_interfaces os).

(** Lines 108-127: the exit status.  [if interface:] is the truth value of
    the returned object: [None] and the empty string are false. *)
Definition main (os : Platform) : Py Z :=
  interface <- detect_ethercat_interface os;;
  match interface with
  | Some i => if PyStr.truthy i then ret 0%Z else ret 1%Z
  | None => ret 1%Z
  end.

(** A run starts with [master] unbound. *)
Definition start (w : World) : Frame := {| world := w; master := None |}.

Definition result_of {A : Type} (x : res A * Frame * list event) : res A :=
  fst (fst x).
Definition frame_of {A : Type} (x : res A * Frame * list event) : Frame :=
  snd (fst x).
Definition trace_of {A : Type} (x : res A * Frame * list event)
  : list event := snd x.

End Probe.

Arguments world {World MasterObj} _.
Arguments master {World MasterObj} _.
Arguments start {World MasterObj} _.
Arguments result_of {World MasterObj A} _.
Arguments frame_of {World MasterObj A} _.
Arguments trace_of {World MasterObj A} _.
Arguments attempt {World MasterObj} _ _ _ _.
Arguments try_body {World MasterObj} _ _ _ _.
Arguments except_handler {World MasterObj} _ _ _ _.
Arguments for_interfaces {World MasterObj} _ _ _ _.
Arguments probe {World MasterObj} _ _ _.
Arguments detect_ethercat_interface {World MasterObj} _ _ _.
Arguments main {World MasterObj} _ _ _.

(** ** Reading the instrumentation *)

Definition event_pos (ev : event) : option nat :=
  match ev with
  | Trying p _ | CallMaster p _ | CallOpen p _ _ | CallConfigInit p _
  | Found p _ _ | NoSlaves p | Error p _ | CallClose p _ _
  | FoundRaised p _ _ => Some p
  | NoInterfaces | NoneFound => None
  end.

(** A call into the stack, as opposed to a printed line. *)
Definition is_call (ev : event) : bool :=
  match ev with
  | CallMaster _ _ | CallOpen _ _ _ | CallConfigInit _ _ | CallClose _ _ _ =>
      true
  | _ => false
  end.

Definition is_trying (ev : event) : bool :=
  match ev with
  | Trying _ _ => true
  | _ => false
  end.

(** The number of attempts of a run: the turns of the loop that started. *)
Definition attempts (tr : list event) : nat :=
  List.length (filter is_trying tr).

(** The candidates attempted, in the order of their attempts. *)
Fixpoint tried (tr : list event) : list string :=
  match tr with
  | [] => []
  | Trying _ i :: tr' => i :: tried tr'
  | _ :: tr' => tried tr'
  end.

Definition is_close_at (p : nat) (ev : event) : bool :=
  match ev with
  | CallClose q _ _ => Nat.eqb p q
  | _ => false
  end.

Definition is_open_at (p : nat) (ev : event) : bool :=
  match ev with
  | CallOpen q _ _ => Nat.eqb p q
  | _ => false
  end.

Definition is_constructed_at (p : nat) (ev : event) : bool :=
  match ev with
  | CallMaster q (Returns _) => Nat.eqb p q
  | _ => false
  end.

Definition is_close_raised_in_try_at (p : nat) (ev : event) : bool :=
  match ev with
  | CallClose q CloseOnFound (Raises _)
  | CallClose q CloseOnNoSlaves (Raises _) => Nat.eqb p q
  | _ => false
  end.

(** Invocations of [close] on the session of candidate [p]. *)
Definition count_close (p : nat) (tr : list event) : nat :=
  List.length (filter (is_close_at p) tr).

(** Invocations of [open] on the session of candidate [p]. *)
Definition count_open (p : nat) (tr : list event) : nat :=
  List.length (filter (is_open_at p) tr).

Definition constructed (p : nat) (tr : list event) : bool :=
  existsb (is_constructed_at p) tr.

(** The [close] of line 90 or 94 raised for candidate [p]. *)
Definition close_raised_in_try (p : nat) (tr : list event) : bool :=
  existsb (is_close_raised_in_try_at p) tr.

(** The sessions open: a session is opened when [open] returns on it and
    closed when a [close] invoked on it returns; a [close] that raises leaves
    it open. *)
Definition step_open (opened : list nat) (ev : event) : list nat :=
  match ev with
  | CallOpen p _ (Returns _) => p :: opened
  | CallClose p _ (Returns _) => remove Nat.eq_dec p opened
  | _ => opened
  end.

Definition open_from (opened : list nat) (tr : list event) : list nat :=
  fold_left step_open tr opened.

Definition open_after (tr : list event) : list nat := open_from [] tr.

Definition is_closed_at (p : nat) (ev : event) : bool :=
  match ev with
  | CallClose q _ (Returns _) => Nat.eqb p q
  | _ => false
  end.

(** The [close] calls that returned on the session of candidate [p]. *)
Definition count_closed (p : nat) (tr : list event) : nat :=
  List.length (filter (is_closed_at p) tr).

Definition is_handler_close_raised (ev : event) : bool :=
  match ev with
  | CallClose _ CloseInHandler (Raises _) => true
  | _ => false
  end.

(** A [close] invoked by the handler (line 100) raised. *)
Definition handler_close_raised (tr : list event) : bool :=
  existsb is_handler_close_raised tr.

Definition is_raised_after_report_at (p : nat) (ev : event) : bool :=
  match ev with
  | FoundRaised q _ _ | CallClose q CloseOnFound (Raises _) => Nat.eqb p q
  | _ => false
  end.

(** For candidate [p], lines 81-87 or the [close] of line 90 raised, that is
    something raised between a positive count and the [return]. *)
Definition raised_after_report (p : nat) (tr : list event) : bool :=
  existsb (is_raised_after_report_at p) tr.

(** Candidate [p] reported [n] slaves: [config_init] returned [n] there. *)
Definition reported (p : nat) (n : Z) (tr : list event) : Prop :=
  In (CallConfigInit p (Returns n)) tr.

(** Candidate [p] matched: the turn reached the [return] of line 91, that is
    the [close] of line 90 returned. *)
Definition matched (p : nat) (tr : list event) : Prop :=
  In (CallClose p CloseOnFound (Returns tt)) tr.

(** ** A scripted stack, for concrete runs *)

Module Sim.

(** What the stack does for the n-th master constructed: the outcome of the
    constructor, of [open], of [config_init], the slaves listed, the outcome
    of printing them, and the outcome of the first and of any further
    [close]. *)
Record Script : Type := {
  construct : res unit;
  opening : res unit;
  init : res Z;
  listing : list Slave.t;
  printing : res unit;
  closing : res unit;
  closing_again : res unit
}.

(** The masters constructed so far, and the [close] calls since the last
    construction. *)
Definition World : Type := (nat * nat)%type.

Definition silent : Script :=
  {| construct := Returns tt; opening := Returns tt; init := Returns 0%Z;
     listing := []; printing := Returns tt; closing := Returns tt; closing_again := Returns tt |}.

Definition motor1 : Slave.t :=
  {| Slave.name := "Motor1"; Slave.man := 2001; Slave.id := 10000 |}.

(** Opens, reports one slave, closes. *)
Definition one_slave : Script :=
  {| construct := Returns tt; opening := Returns tt; init := Returns 1%Z;
     listing := [motor1]; printing := Returns tt; closing := Returns tt;
     closing_again := Returns tt |}.

Definition cannot_open : Script :=
  {| construct := Returns tt;
     opening := Raises (Exception "could not open interface");
     init := Returns 0%Z; listing := []; printing := Returns tt; closing := Returns tt;
     closing_again := Returns tt |}.

Definition cannot_construct : Script :=
  {| construct := Raises (Exception "no memory");
     opening := Returns tt; init := Returns 0%Z; listing := []; printing := Returns tt;
     closing := Returns tt; closing_again := Returns tt |}.

Definition init_fails : Script :=
  {| construct := Returns tt; opening := Returns tt;
     init := Raises (Exception "config_init failed"); listing := []; printing := Returns tt;
     closing := Returns tt;
     closing_again := Returns tt |}.

(** As [init_fails], and every [close] raises as well. *)
Definition init_and_close_fail : Script :=
  {| construct := Returns tt; opening := Returns tt;
     init := Raises (Exception "config_init failed"); listing := []; printing := Returns tt;
     closing := Raises (Exception "close failed");
     closing_again := Raises (Exception "close failed") |}.

(** Opens and reports no slave; the first [close] raises. *)
Definition no_slave_close_raises : Script :=
  {| construct := Returns tt; opening := Returns tt; init := Returns 0%Z;
     listing := []; printing := Returns tt; closing := Raises (Exception "close failed");
     closing_again := Returns tt |}.

(** Opens and reports one slave; the first [close] raises. *)
Definition one_slave_close_raises : Script :=
  {| construct := Returns tt; opening := Returns tt; init := Returns 1%Z;
     listing := [motor1]; printing := Returns tt; closing := Raises (Exception "close failed");
     closing_again := Returns tt |}.

(** Opens and reports one slave; the terminal cannot encode the check
    mark. *)
Definition one_slave_print_raises : Script :=
  {| construct := Returns tt; opening := Returns tt; init := Returns 1%Z;
     listing := [motor1];
     printing := Raises (Exception "codec cannot encode character u2713");
     closing := Returns tt; closing_again := Returns tt |}.

(** Opens and reports three slaves while listing none. *)
Definition count_without_slaves : Script :=
  {| construct := Returns tt; opening := Returns tt; init := Returns 3%Z;
     listing := []; printing := Returns tt;
     closing := Returns tt; closing_again := Returns tt |}.

Definition script (scripts : list Script) (n : nat) : Script :=
  nth n scripts silent.

Definition stack (scripts : list Script) : pysoem World nat :=
  {| Master := fun w =>
       (match construct (script scripts (fst w)) with
        | Returns _ => Returns (fst w)
        | Raises e => Raises e
        end, (S (fst w), 0));
     open := fun m _ w => (opening (script scripts m), w);
     config_init := fun m w => (init (script scripts m), w);
     slaves := fun m _ => listing (script scripts m);
     print_found := fun _ _ w =>
       (printing (script scripts (fst w - 1)), w);
     close := fun m w =>
       (if Nat.eqb (snd w) 0 then closing (script scripts m)
        else closing_again (script scripts m),
        (fst w, S (snd w))) |}.

Definition boot : World := (0, 0).

(** A run of the probe against the scripts. *)
Definition run (scripts : list Script) (interfaces : list string)
  : res (option string) * list event :=
  let x := probe (stack scripts) interfaces (start boot) in
  (result_of x, trace_of x).

End Sim.

(** ** The shapes of a run *)

(** The eight ways one turn of the loop can go, with what it returns
    ([Some interface] for the [return] of line 91) and what it logs. *)
Inductive turn (pos : nat) (interface : string)
  : option string -> list event -> Prop :=
| turn_not_constructed (e : exn) :
    turn pos interface None
      [Trying pos interface; CallMaster pos (Raises e); Error pos e]
| turn_open_raises (e : exn) (r : res unit) :
    turn pos interface None
      [Trying pos interface; CallMaster pos (Returns tt);
       CallOpen pos interface (Raises e); Error pos e;
       CallClose pos CloseInHandler r]
| turn_init_raises (e : exn) (r : res unit) :
    turn pos interface None
      [Trying pos interface; CallMaster pos (Returns tt);
       CallOpen pos interface (Returns tt); CallConfigInit pos (Raises e);
       Error pos e; CallClose pos CloseInHandler r]
| turn_no_slaves (n : Z) :
    (n <= 0)%Z ->
    turn pos interface None
      [Trying pos interface; CallMaster pos (Returns tt);
       CallOpen pos interface (Returns tt); CallConfigInit pos (Returns n);
       NoSlaves pos; CallClose pos CloseOnNoSlaves (Returns tt)]
| turn_no_slaves_close_raises (n : Z) (e : exn) (r : res unit) :
    (n <= 0)%Z ->
    turn pos interface None
      [Trying pos interface; CallMaster pos (Returns tt);
       CallOpen pos interface (Returns tt); CallConfigInit pos (Returns n);
       NoSlaves pos; CallClose pos CloseOnNoSlaves (Raises e);
       Error pos e; CallClose pos CloseInHandler r]
| turn_found (n : Z) (info : list Slave.t) :
    (0 < n)%Z ->
    turn pos interface (Some interface)
      [Trying pos interface; CallMaster pos (Returns tt);
       CallOpen pos interface (Returns tt); CallConfigInit pos (Returns n);
       Found pos n info; CallClose pos CloseOnFound (Returns tt)]
| turn_found_close_raises (n : Z) (info : list Slave.t) (e : exn)
                          (r : res unit) :
    (0 < n)%Z ->
    turn pos interface None
      [Trying pos interface; CallMaster pos (Returns tt);
       CallOpen pos interface (Returns tt); CallConfigInit pos (Returns n);
       Found pos n info; CallClose pos CloseOnFound (Raises e);
       Error pos e; CallClose pos CloseInHandler r]
| turn_found_print_raises (n : Z) (e : exn) (r : res unit) :
    (0 < n)%Z ->
    turn pos interface None
      [Trying pos interface; CallMaster pos (Returns tt);
       CallOpen pos interface (Returns tt); CallConfigInit pos (Returns n);
       FoundRaised pos n e; Error pos e; CallClose pos CloseInHandler r].

(** The loop from position [pos] on: turns that fall through, closed by the
    end of the list or by a turn that returns. *)
Inductive scan : nat -> list string -> option string -> list event -> Prop :=
| scan_exhausted (pos : nat) :
    scan pos [] None [NoneFound]
| scan_return (pos : nat) (i : string) (rest : list string)
              (t : list event) :
    turn pos i (Some i) t ->
    scan pos (i :: rest) (Some i) t
| scan_next (pos : nat) (i : string) (rest : list string)
            (t t' : list event) (o : option string) :
    turn pos i None t ->
    scan (S pos) rest o t' ->
    scan pos (i :: rest) o (t ++ t').

(** The events of the candidate at position [p]. *)
Definition mentions (p : nat) (ev : event) : bool :=
  match event_pos ev with
  | Some q => Nat.eqb p q
  | None => false
  end.

Definition at_pos (p : nat) (tr : list event) : list event :=
  filter (mentions p) tr.

(** ** The properties as the specification words them *)

(** Every session that was opened is closed exactly once. *)
Definition spec_closed_exactly_once (tr : list event) : Prop :=
  forall p i, In (CallOpen p i (Returns tt)) tr -> count_closed p tr = 1.

(** At no point of the run are two sessions open. *)
Definition spec_one_session_at_a_time (tr : list event) : Prop :=
  forall k, List.length (open_after (firstn k tr)) <= 1.

(** The first candidate to report at least one slave is selected and no
    later candidate is attempted. *)
Definition spec_first_report_wins (interfaces : list string)
           (result : res (option string)) (tr : list event) : Prop :=
  forall p n,
    reported p n tr -> (0 < n)%Z ->
    (forall q m, q < p -> reported q m tr -> (m <= 0)%Z) ->
    (exists i, nth_error interfaces p = Some i /\ result = Returns (Some i))
    /\ (forall ev q, In ev tr -> event_pos ev = Some q -> q <= p).

(** The attempts are at most the candidates, and as many exactly when no
    candidate yields a match. *)
Definition spec_attempts_law (interfaces : list string)
           (result : res (option string)) (tr : list event) : Prop :=
  attempts tr <= List.length interfaces
  /\ (attempts tr = List.length interfaces <-> result = Returns None).

(** A selection comes with a non-empty list of slave records, from an
    attempt that reported at least one slave, and no selection means that no
    attempt reported one. *)
Definition spec_result_law (interfaces : list string)
           (result : res (option string)) (tr : list event) : Prop :=
  (forall i, result = Returns (Some i) ->
             exists p n info, nth_error interfaces p = Some i
                              /\ reported p n tr /\ (0 < n)%Z
                              /\ In (Found p n info) tr /\ info <> [])
  /\ (result = Returns None ->
      forall p n, reported p n tr -> (n <= 0)%Z).

(** The exit status is 0 exactly when the probe selected an interface. *)
Definition spec_exit_status (selection : res (option string))
           (status : res Z) : Prop :=
  (status = Returns 0%Z <-> exists i, selection = Returns (Some i))
  /\ (status = Returns 1%Z <-> ~ exists i, selection = Returns (Some i)).

(** A command fails when it cannot be run or exits with a status other
    than 0. *)
Definition command_fails (r : res CompletedProcess) : bool :=
  match r with
  | Raises _ => true
  | Returns c => negb (returncode c =? 0)%Z
  end.

(** The enumeration fails when every command the function runs fails:
    [ifconfig] is run only after [ip] completed with a status other than 0. *)
Definition enumeration_fails (os : Platform) : bool :=
  match run_ip_link_show os with
  | Raises _ => true
  | Returns c =>
      negb (returncode c =? 0)%Z && command_fails (run_ifconfig os)
  end.

(** A failed enumeration yields the fallback list. *)
Definition spec_fallback (os : Platform) : Prop :=
  enumeration_fails os = true ->
  get_network_interfaces os = fallback_interfaces.

(** The names the filter of line 31 skips: the prefixes of the loopback and
    of the virtual Ethernet interfaces. *)
Definition matches_skip_pattern (name : string) : bool :=
  PyStr.startswith name "lo" || PyStr.startswith name "veth".

(** The names of loopback, virtual and bridge interfaces as Linux gives
    them: lo, veth*, br*, docker*, virbr*, tun* and tap*. *)
Definition virtual_or_bridge_prefixes : list string :=
  ["lo"; "veth"; "br"; "docker"; "virbr"; "tun"; "tap"].

Definition looks_virtual_or_bridge (name : string) : bool :=
  existsb (PyStr.startswith name) virtual_or_bridge_prefixes.

(** No loopback, virtual or bridge interface is a candidate. *)
Definition spec_no_virtual_or_bridge (os : Platform) : Prop :=
  Forall (fun name => looks_virtual_or_bridge name = false)
         (get_network_interfaces os).

(** ** Concrete platforms *)

Module Host.

Definition ip_output : string :=
  "1: lo: <LOOPBACK,UP,LOWER_UP> mtu 65536 qdisc noqueue state UNKNOWN
    link/loopback 00:00:00:00:00:00 brd 00:00:00:00:00:00
2: eth0: <BROADCAST,MULTICAST,UP,LOWER_UP> mtu 1500 qdisc mq state UP
    link/ether 00:15:5d:00:00:01 brd ff:ff:ff:ff:ff:ff
3: veth12@if3: <BROADCAST,MULTICAST> mtu 1500 qdisc noqueue state UP".

(** [ip link show] works. *)
Definition linux : Platform :=
  {| run_ip_link_show := Returns {| returncode := 0; stdout := ip_output |};
     run_ifconfig := Raises (Exception "No such file or directory") |}.

(** Neither command is installed. *)
Definition bare : Platform :=
  {| run_ip_link_show := Raises (Exception "No such file or directory");
     run_ifconfig := Raises (Exception "No such file or directory") |}.

(** Both commands run and exit with status 1, printing nothing on the
    standard output. *)
Definition both_exit_1 : Platform :=
  {| run_ip_link_show := Returns {| returncode := 1; stdout := "" |};
     run_ifconfig := Returns {| returncode := 1; stdout := "" |} |}.

(** [ip link show] on a host with a Docker bridge, a bridge, a libvirt
    bridge and a tunnel. *)
Definition with_bridges : Platform :=
  {| run_ip_link_show :=
       Returns {| returncode := 0;
                  stdout := "1: lo: <LOOPBACK,UP,LOWER_UP> mtu 65536 state UNKNOWN
2: eth0: <BROADCAST,MULTICAST,UP,LOWER_UP> mtu 1500 state UP
3: docker0: <NO-CARRIER,BROADCAST,MULTICAST,UP> mtu 1500 state DOWN
4: br0: <BROADCAST,MULTICAST,UP,LOWER_UP> mtu 1500 state UP
5: virbr0: <NO-CARRIER,BROADCAST,MULTICAST,UP> mtu 1500 state DOWN
6: tun0: <POINTOPOINT,MULTICAST,NOARP,UP,LOWER_UP> mtu 1500 state UNKNOWN
7: veth1a2b@if6: <BROADCAST,MULTICAST,UP,LOWER_UP> mtu 1500 state UP" |};
     run_ifconfig := Raises (Exception "No such file or directory") |}.

(** [ip link show] prints a line whose name field is blank. *)
Definition blank_name : Platform :=
  {| run_ip_link_show :=
       Returns {| returncode := 0; stdout := "1: : <UP> mtu 1500 state UP" |};
     run_ifconfig := Raises (Exception "No such file or directory") |}.

End Host.

(** ** Further readings of the instrumentation *)

(** [a] is logged before [b]. *)
Inductive precedes (a b : event) : list event -> Prop :=
| precedes_here (t : list event) : In b t -> precedes a b (a :: t)
| precedes_later (x : event) (t : list event) :
    precedes a b t -> precedes a b (x :: t).

Definition is_config_init_at (p : nat) (ev : event) : bool :=
  match ev with
  | CallConfigInit q _ => Nat.eqb p q
  | _ => false
  end.

Definition is_master_at (p : nat) (ev : event) : bool :=
  match ev with
  | CallMaster q _ => Nat.eqb p q
  | _ => false
  end.

(** Invocations of [config_init] for candidate [p]. *)
Definition count_config_init (p : nat) (tr : list event) : nat :=
  List.length (filter (is_config_init_at p) tr).

(** Invocations of [pysoem.Master()] for candidate [p]. *)
Definition count_master (p : nat) (tr : list event) : nat :=
  List.length (filter (is_master_at p) tr).

(** All the calls into the stack of a run. *)
Definition count_calls (tr : list event) : nat :=
  List.length (filter is_call tr).

(** A platform on which [ip link show] exits with status 0. *)
Definition ip_prints (out : string) (other : res CompletedProcess)
  : Platform :=
  {| run_ip_link_show := Returns {| returncode := 0; stdout := out |};
     run_ifconfig := other |}.

(** A platform on which [ip link show] exits with [status] and [ifconfig]
    completes. *)
Definition ifconfig_prints (status : Z) (ip_out : string)
           (c : CompletedProcess) : Platform :=
  {| run_ip_link_show := Returns {| returncode := status; stdout := ip_out |};
     run_ifconfig := Returns c |}.

(** * Facts *)

Section ProbeFacts.

Variables World MasterObj : Type.
Variable stack : pysoem World MasterObj.

Lemma attempt_turn (pos : nat) (interface : string)
      (f : Frame World MasterObj) :
  exists o f' t,
    attempt stack pos interface f = (Returns o, f', t)
    /\ turn pos interface o t.
Proof.
  unfold attempt, try_body, except_handler, try_except, bind, call, print,
    assign_master, read_master, attribute, ret; simpl.
  destruct (Master stack (world f)) as [[m|e] w1]; simpl.
  2: { do 3 eexists; split; [reflexivity | constructor]. }
  destruct (open stack m interface w1) as [[[]|e] w2]; simpl.
  2: { destruct (close stack m w2) as [[[]|e'] w3]; simpl;
       do 3 eexists; (split; [reflexivity | constructor]). }
  destruct (config_init stack m w2) as [[n|e] w3]; simpl.
  2: { destruct (close stack m w3) as [[[]|e'] w4]; simpl;
       do 3 eexists; (split; [reflexivity | constructor]). }
  destruct (n >? 0)%Z eqn:Hn; simpl.
  - apply Z.gtb_lt in Hn.
    destruct (print_found stack n (slaves stack m w3) w3) as [[[]|e] wp];
      simpl.
    + destruct (close stack m wp) as [[[]|e] w4]; simpl.
      * do 3 eexists; split; [reflexivity | now constructor].
      * destruct (close stack m w4) as [[[]|e'] w5]; simpl;
          do 3 eexists; (split; [reflexivity | now constructor]).
    + destruct (close stack m wp) as [[[]|e'] w4]; simpl;
        do 3 eexists; (split; [reflexivity | now constructor]).
  - assert (n <= 0)%Z by (rewrite Z.gtb_ltb in Hn; apply Z.ltb_ge in Hn; exact Hn).
    destruct (close stack m w3) as [[[]|e] w4]; simpl.
    + do 3 eexists; split; [reflexivity | now constructor].
    + destruct (close stack m w4) as [[[]|e'] w5]; simpl;
        do 3 eexists; (split; [reflexivity | now constructor]).
Qed.

Lemma for_interfaces_scan (interfaces : list string) :
  forall (pos : nat) (f : Frame World MasterObj),
  exists o f' t,
    for_interfaces stack pos interfaces f = (Returns o, f', t)
    /\ scan pos interfaces o t.
Proof.
  induction interfaces as [|i rest IH]; intros pos f.
  - do 3 eexists; split; [reflexivity | constructor].
  - destruct (attempt_turn pos i f) as (o & f1 & t & E & T).
    cbn [for_interfaces]. unfold bind at 1. rewrite E.
    destruct o as [x|].
    + assert (x = i) by (inversion T; reflexivity). subst x.
      unfold ret. do 3 eexists; split; [reflexivity|].
      rewrite app_nil_r. now constructor.
    + destruct (IH (S pos) f1) as (o & f2 & t' & E' & S').
      rewrite E'. do 3 eexists; split; [reflexivity|].
      econstructor; eassumption.
Qed.

End ProbeFacts.

(** ** Lists of events *)

Lemma attempts_app (t t' : list event) :
  attempts (t ++ t') = attempts t + attempts t'.
Proof. unfold attempts. now rewrite filter_app, length_app. Qed.

Lemma tried_app (t t' : list event) : tried (t ++ t') = tried t ++ tried t'.
Proof.
  induction t as [|ev t IH]; [reflexivity|].
  destruct ev; simpl; now rewrite ?IH.
Qed.

Lemma at_pos_app (p : nat) (t t' : list event) :
  at_pos p (t ++ t') = at_pos p t ++ at_pos p t'.
Proof. apply filter_app. Qed.

Lemma in_at_pos (p : nat) (ev : event) (t : list event) :
  In ev t -> event_pos ev = Some p -> In ev (at_pos p t).
Proof.
  intros H E. apply filter_In. split; [exact H|].
  unfold mentions. rewrite E. apply Nat.eqb_refl.
Qed.

Lemma at_pos_incl (p : nat) (ev : event) (t : list event) :
  In ev (at_pos p t) -> In ev t.
Proof. intros H. now apply filter_In in H. Qed.

Lemma filter_refines {A : Type} (f g : A -> bool) (l : list A) :
  (forall a, f a = true -> g a = true) ->
  filter f (filter g l) = filter f l.
Proof.
  intros H. induction l as [|a l IH]; [reflexivity|]. simpl.
  destruct (g a) eqn:G; simpl.
  - now rewrite IH.
  - destruct (f a) eqn:F; [|exact IH].
    apply H in F. congruence.
Qed.

Lemma existsb_refines {A : Type} (f g : A -> bool) (l : list A) :
  (forall a, f a = true -> g a = true) ->
  existsb f (filter g l) = existsb f l.
Proof.
  intros H. induction l as [|a l IH]; [reflexivity|]. simpl.
  destruct (g a) eqn:G; simpl.
  - now rewrite IH.
  - destruct (f a) eqn:F; [|exact IH].
    apply H in F. congruence.
Qed.

Lemma count_close_at_pos (p : nat) (t : list event) :
  count_close p (at_pos p t) = count_close p t.
Proof.
  unfold count_close, at_pos. rewrite filter_refines; [reflexivity|].
  intros [] H; simpl in *; try discriminate; exact H.
Qed.

Lemma count_open_at_pos (p : nat) (t : list event) :
  count_open p (at_pos p t) = count_open p t.
Proof.
  unfold count_open, at_pos. rewrite filter_refines; [reflexivity|].
  intros [] H; simpl in *; try discriminate; exact H.
Qed.

Lemma constructed_at_pos (p : nat) (t : list event) :
  constructed p (at_pos p t) = constructed p t.
Proof.
  unfold constructed, at_pos. apply existsb_refines.
  intros [? | ? [] | | | | | | | | | ] H; simpl in *; try discriminate; exact H.
Qed.

Lemma close_raised_in_try_at_pos (p : nat) (t : list event) :
  close_raised_in_try p (at_pos p t) = close_raised_in_try p t.
Proof.
  unfold close_raised_in_try, at_pos. apply existsb_refines.
  intros [ | | | | | | | ? [] [] | | | ] H; simpl in *;
    try discriminate; exact H.
Qed.

Lemma open_from_app (l : list nat) (t t' : list event) :
  open_from l (t ++ t') = open_from (open_from l t) t'.
Proof. apply fold_left_app. Qed.

Lemma count_closed_at_pos (p : nat) (t : list event) :
  count_closed p (at_pos p t) = count_closed p t.
Proof.
  unfold count_closed, at_pos. rewrite filter_refines; [reflexivity|].
  intros [ | | | | | | | ? ? [] | | | ] H; simpl in *;
    try discriminate; exact H.
Qed.

Lemma raised_after_report_at_pos (p : nat) (t : list event) :
  raised_after_report p (at_pos p t) = raised_after_report p t.
Proof.
  unfold raised_after_report, at_pos. apply existsb_refines.
  intros [ | | | | | | | ? [] [] | | | ] H; simpl in *;
    try discriminate; exact H.
Qed.

Lemma existsb_filter_false {A : Type} (f g : A -> bool) (l : list A) :
  existsb f l = false -> existsb f (filter g l) = false.
Proof.
  induction l as [|a l IH]; [reflexivity|]. simpl. intros H.
  apply orb_false_iff in H. destruct H as [Ha Hl].
  destruct (g a); simpl; [rewrite Ha|]; now apply IH.
Qed.

Lemma handler_close_raised_app (t t' : list event) :
  handler_close_raised (t ++ t')
  = handler_close_raised t || handler_close_raised t'.
Proof. apply existsb_app. Qed.

Lemma filter_none {A : Type} (f : A -> bool) (l : list A) :
  (forall a, In a l -> f a = false) -> filter f l = [].
Proof.
  induction l as [|a l IH]; intros H; [reflexivity|]. simpl.
  rewrite (H a (or_introl eq_refl)). apply IH.
  intros b Hb. apply H. now right.
Qed.

(** ** One turn *)

Lemma turn_positions (pos : nat) (i : string) (o : option string)
      (t : list event) :
  turn pos i o t -> Forall (fun ev => event_pos ev = Some pos) t.
Proof. intros T. inversion T; subst; repeat constructor. Qed.

Lemma turn_at_pos (pos : nat) (i : string) (o : option string)
      (t : list event) :
  turn pos i o t -> at_pos pos t = t.
Proof.
  intros T. apply turn_positions in T. unfold at_pos.
  induction T as [|ev t E _ IH]; [reflexivity|]. simpl.
  unfold mentions at 1. rewrite E, Nat.eqb_refl. now rewrite IH.
Qed.

Lemma turn_at_other (pos p : nat) (i : string) (o : option string)
      (t : list event) :
  turn pos i o t -> p <> pos -> at_pos p t = [].
Proof.
  intros T N. apply turn_positions in T. unfold at_pos.
  induction T as [|ev t E _ IH]; [reflexivity|]. simpl.
  unfold mentions at 1. rewrite E.
  destruct (Nat.eqb_spec p pos); [contradiction | exact IH].
Qed.

Lemma turn_attempts (pos : nat) (i : string) (o : option string)
      (t : list event) :
  turn pos i o t -> attempts t = 1 /\ tried t = [i].
Proof. intros T. inversion T; subst; split; reflexivity. Qed.

Lemma turn_head (pos : nat) (i : string) (o : option string)
      (t : list event) :
  turn pos i o t -> In (Trying pos i) t.
Proof. intros T. inversion T; subst; left; reflexivity. Qed.

Lemma turn_returns (pos : nat) (i x : string) (t : list event) :
  turn pos i (Some x) t ->
  x = i /\ matched pos t /\ forall e, ~ In (Error pos e) t.
Proof.
  intros T. inversion T; subst. split; [reflexivity|]. split.
  - unfold matched. simpl. tauto.
  - intros e H. simpl in H.
    repeat (destruct H as [H|H]; try discriminate). contradiction.
Qed.

Lemma turn_falls_through (pos : nat) (i : string) (t : list event) :
  turn pos i None t -> forall p, ~ matched p t.
Proof.
  intros T p H. unfold matched in H.
  inversion T; subst; simpl in H;
    repeat (destruct H as [H|H]; try discriminate); contradiction.
Qed.

(** Within a turn no session is closed twice; when the [close] of the
    handler does not raise, the session constructed is closed once, at most
    one session is open at any point and none is at the end. *)
Lemma turn_closed (p : nat) (i : string) (o : option string)
      (t : list event) :
  turn p i o t ->
  count_closed p t <= 1
  /\ (handler_close_raised t = false ->
      (constructed p t = true -> count_closed p t = 1)
      /\ open_from [] t = []
      /\ forall k, List.length (open_from [] (firstn k t)) <= 1).
Proof.
  intros T.
  assert (R : forall (a b : list nat),
             (if Nat.eq_dec p p then a else b) = a).
  { intros a b. destruct (Nat.eq_dec p p); [reflexivity | contradiction]. }
  inversion T; subst;
    repeat match goal with
           | r : res unit |- _ => destruct r as [[]|?]
           end;
    (split; [unfold count_closed; simpl; rewrite ?Nat.eqb_refl; simpl; lia|]);
    intros HCR; try (cbv in HCR; discriminate HCR);
    (split; [intros C; unfold constructed, count_closed in *; simpl in *;
             rewrite ?Nat.eqb_refl in *; simpl in *;
             first [discriminate C | reflexivity]|]);
    (split; [unfold open_from; simpl; rewrite ?R; reflexivity|]);
    intros k;
    do 9 (try (destruct k as [|k]; unfold open_from; simpl; rewrite ?R;
               simpl; try lia)).
Qed.

(** ** The loop *)

Lemma scan_positions (pos : nat) (l : list string) (o : option string)
      (t : list event) :
  scan pos l o t ->
  forall ev q, In ev t -> event_pos ev = Some q ->
               pos <= q < pos + attempts t.
Proof.
  induction 1 as [pos | pos i rest t T | pos i rest t t' o T Sc IH];
    intros ev q H E.
  - destruct H as [H|[]]. subst ev. discriminate.
  - destruct (turn_attempts _ _ _ _ T) as [A _]. rewrite A.
    apply turn_positions in T. rewrite Forall_forall in T.
    apply T in H. rewrite H in E. injection E as <-. lia.
  - rewrite attempts_app. destruct (turn_attempts _ _ _ _ T) as [A _].
    rewrite A. apply in_app_or in H. destruct H as [H|H].
    + apply turn_positions in T. rewrite Forall_forall in T.
      apply T in H. rewrite H in E. injection E as <-. lia.
    + specialize (IH ev q H E). lia.
Qed.

Lemma scan_attempts (pos : nat) (l : list string) (o : option string)
      (t : list event) :
  scan pos l o t ->
  attempts t <= List.length l
  /\ tried t = firstn (attempts t) l
  /\ (o = None -> attempts t = List.length l).
Proof.
  induction 1 as [pos | pos i rest t T | pos i rest t t' o T Sc IH].
  - repeat split; reflexivity.
  - destruct (turn_attempts _ _ _ _ T) as [A B]. rewrite A, B. simpl.
    repeat split; [lia | discriminate].
  - destruct (turn_attempts _ _ _ _ T) as [A B].
    destruct IH as (IH1 & IH2 & IH3).
    rewrite attempts_app, tried_app, A, B. simpl.
    repeat split; [lia | now rewrite IH2 | intros ->; now rewrite IH3].
Qed.

(** A candidate that matched ends the loop: it is the one returned and the
    last one attempted. *)
Lemma scan_matched (pos : nat) (l : list string) (o : option string)
      (t : list event) :
  scan pos l o t ->
  forall p, matched p t ->
            pos <= p
            /\ attempts t = S (p - pos)
            /\ exists i, nth_error l (p - pos) = Some i /\ o = Some i.
Proof.
  induction 1 as [pos | pos i rest t T | pos i rest t t' o T Sc IH];
    intros p M.
  - destruct M as [M|[]]. discriminate.
  - destruct (turn_attempts _ _ _ _ T) as [A _].
    assert (E : event_pos (CallClose p CloseOnFound (Returns tt)) = Some p)
      by reflexivity.
    pose proof (turn_positions _ _ _ _ T) as P. rewrite Forall_forall in P.
    apply P in M. rewrite M in E. injection E as <-.
    rewrite Nat.sub_diag, A. split; [lia|]. split; [reflexivity|].
    exists i. split; reflexivity.
  - apply in_app_or in M. destruct M as [M|M].
    + exfalso. exact (turn_falls_through _ _ _ T p M).
    + destruct (IH p M) as (L & A' & i' & N & O).
      destruct (turn_attempts _ _ _ _ T) as [A _].
      rewrite attempts_app, A, A'.
      replace (p - pos) with (S (p - S pos)) by lia.
      split; [lia|]. split; [lia|]. exists i'. split; assumption.
Qed.

(** A returned candidate matched, at the position of the last attempt. *)
Lemma scan_selected (pos : nat) (l : list string) (x : string)
      (t : list event) :
  scan pos l (Some x) t ->
  1 <= attempts t
  /\ nth_error l (attempts t - 1) = Some x
  /\ matched (pos + attempts t - 1) t.
Proof.
  remember (Some x) as o eqn:O. intros Sc. revert O.
  induction Sc as [pos | pos i rest t T | pos i rest t t' o T Sc IH];
    intros O.
  - discriminate.
  - injection O as ->.
    destruct (turn_attempts _ _ _ _ T) as [A _].
    destruct (turn_returns _ _ _ _ T) as (_ & M & _).
    rewrite A. replace (pos + 1 - 1) with pos by lia.
    repeat split; [lia | assumption].
  - destruct (IH O) as (L & N & M).
    destruct (turn_attempts _ _ _ _ T) as [A _].
    rewrite attempts_app, A.
    repeat split; [lia | |].
    + replace (1 + attempts t' - 1) with (S (attempts t' - 1)) by lia.
      exact N.
    + unfold matched in *. apply in_or_app. right.
      replace (pos + (1 + attempts t') - 1) with (S pos + attempts t' - 1)
        by lia.
      exact M.
Qed.

(** The events of one position are nothing or one whole turn. *)
Lemma scan_at_pos (pos : nat) (l : list string) (o : option string)
      (t : list event) :
  scan pos l o t ->
  forall p, at_pos p t = []
            \/ exists i o', nth_error l (p - pos) = Some i
                            /\ pos <= p
                            /\ turn p i o' (at_pos p t).
Proof.
  induction 1 as [pos | pos i rest t T | pos i rest t t' o T Sc IH];
    intros p.
  - left. reflexivity.
  - destruct (Nat.eq_dec p pos) as [->|N].
    + right. exists i, (Some i). rewrite (turn_at_pos _ _ _ _ T).
      rewrite Nat.sub_diag. repeat split; [lia | assumption].
    + left. exact (turn_at_other _ _ _ _ _ T N).
  - rewrite at_pos_app. destruct (Nat.eq_dec p pos) as [->|N].
    + right. exists i, None. rewrite (turn_at_pos _ _ _ _ T).
      assert (E : at_pos pos t' = []).
      { unfold at_pos. apply filter_none. intros ev H. unfold mentions.
        destruct (event_pos ev) as [q|] eqn:Q; [|reflexivity].
        pose proof (scan_positions _ _ _ _ Sc ev q H Q).
        destruct (Nat.eqb_spec pos q); [lia | reflexivity]. }
      rewrite E, app_nil_r, Nat.sub_diag. repeat split; [lia | assumption].
    + rewrite (turn_at_other _ _ _ _ _ T N). simpl.
      destruct (IH p) as [E | (i' & o' & H1 & H2 & H3)]; [left; exact E|].
      right. exists i', o'.
      replace (p - pos) with (S (p - S pos)) by lia.
      repeat split; [assumption | lia | assumption].
Qed.

(** After a turn that logged an error the next candidate is tried. *)
Lemma scan_error_continues (pos : nat) (l : list string) (o : option string)
      (t : list event) :
  scan pos l o t ->
  forall p e, In (Error p e) t ->
              pos <= p
              /\ forall i, nth_error l (S (p - pos)) = Some i ->
                           In (Trying (S p) i) t.
Proof.
  induction 1 as [pos | pos i rest t T | pos i rest t t' o T Sc IH];
    intros p e H.
  - destruct H as [H|[]]. discriminate.
  - exfalso.
    assert (E : event_pos (Error p e) = Some p) by reflexivity.
    pose proof (turn_positions _ _ _ _ T) as P. rewrite Forall_forall in P.
    pose proof (P _ H) as Q. rewrite Q in E. injection E as <-.
    destruct (turn_returns _ _ _ _ T) as (_ & _ & N). exact (N e H).
  - apply in_app_or in H. destruct H as [H|H].
    + assert (E : event_pos (Error p e) = Some p) by reflexivity.
      pose proof (turn_positions _ _ _ _ T) as P. rewrite Forall_forall in P.
      pose proof (P _ H) as Q. rewrite Q in E. injection E as <-.
      split; [lia|]. rewrite Nat.sub_diag. intros i' N.
      apply in_or_app. right. simpl in N.
      destruct rest as [|j rest']; [discriminate|]. injection N as ->.
      inversion Sc; subst.
      * now apply turn_head with (o := Some i').
      * apply in_or_app. left. now apply turn_head with (o := None).
    + destruct (IH p e H) as [L N]. split; [lia|]. intros i' N'.
      apply in_or_app. right. apply N.
      replace (S (p - pos)) with (S (S (p - S pos))) in N' by lia.
      exact N'.
Qed.

(** Sessions open along the loop, when no [close] of the handler raises. *)
Lemma scan_open (pos : nat) (l : list string) (o : option string)
      (t : list event) :
  scan pos l o t ->
  handler_close_raised t = false ->
  open_from [] t = []
  /\ forall k, List.length (open_from [] (firstn k t)) <= 1.
Proof.
  induction 1 as [pos | pos i rest t T | pos i rest t t' o T Sc IH];
    intros H.
  - split; [reflexivity|]. intros [|[|k]]; simpl; lia.
  - destruct (turn_closed _ _ _ _ T) as [_ C].
    destruct (C H) as (_ & E & B). split; assumption.
  - rewrite handler_close_raised_app in H. apply orb_false_iff in H.
    destruct H as [H H'].
    destruct (turn_closed _ _ _ _ T) as [_ C].
    destruct (C H) as (_ & E & B). destruct (IH H') as [E' B'].
    split.
    + now rewrite open_from_app, E.
    + intros k. rewrite firstn_app, open_from_app.
      destruct (Nat.le_gt_cases k (List.length t)) as [L|L].
      * replace (k - List.length t) with 0 by lia. simpl. apply B.
      * rewrite firstn_all2 by lia. rewrite E. apply B'.
Qed.

(** ** What one turn logs *)

Ltac in_cases H :=
  simpl in H;
  repeat (destruct H as [H|H]; [try discriminate H|]);
  try contradiction.

Lemma turn_counts (p : nat) (i : string) (o : option string)
      (t : list event) :
  turn p i o t ->
  count_open p t = (if constructed p t then 1 else 0)
  /\ count_close p t
     = count_open p t + (if close_raised_in_try p t then 1 else 0).
Proof.
  intros T.
  inversion T; subst;
    unfold count_open, count_close, constructed, close_raised_in_try;
    simpl; rewrite ?Nat.eqb_refl; simpl; split; reflexivity.
Qed.

Lemma turn_failure_logged (p : nat) (i : string) (o : option string)
      (t : list event) (e : exn) :
  turn p i o t ->
  In (CallMaster p (Raises e)) t
  \/ (exists j, In (CallOpen p j (Raises e)) t)
  \/ In (CallConfigInit p (Raises e)) t ->
  In (Error p e) t.
Proof.
  intros T [H | [[j H] | H]];
    inversion T; subst; in_cases H;
    inversion H; subst; simpl; auto 10.
Qed.

Lemma turn_not_constructed_no_close (p : nat) (i : string)
      (o : option string) (t : list event) (e : exn) :
  turn p i o t -> In (CallMaster p (Raises e)) t -> count_close p t = 0.
Proof.
  intros T H. inversion T; subst; in_cases H. reflexivity.
Qed.

Lemma turn_handler_close (p : nat) (i : string) (o : option string)
      (t : list event) (r : res unit) :
  turn p i o t ->
  In (CallClose p CloseInHandler r) t ->
  constructed p t = true /\ exists e, In (Error p e) t.
Proof.
  intros T H.
  inversion T; subst; in_cases H;
    (split; [unfold constructed; simpl; rewrite Nat.eqb_refl; reflexivity
            | eexists; simpl; eauto 10]).
Qed.

Lemma turn_matched_reported (p : nat) (i : string) (o : option string)
      (t : list event) :
  turn p i o t -> matched p t ->
  exists n info, reported p n t /\ (0 < n)%Z /\ In (Found p n info) t.
Proof.
  intros T H. unfold matched in H.
  inversion T; subst; in_cases H.
  exists n, info. unfold reported. simpl. auto 10.
Qed.

Lemma turn_report_dropped (p : nat) (i : string) (t : list event) (n : Z) :
  turn p i None t -> reported p n t -> (0 < n)%Z ->
  raised_after_report p t = true.
Proof.
  intros T H N. unfold reported in H.
  inversion T; subst; in_cases H;
    injection H as <-; try lia;
    unfold raised_after_report; simpl; rewrite Nat.eqb_refl;
    rewrite ?orb_true_r; reflexivity.
Qed.

Lemma turn_reported_matched (p : nat) (i : string) (o : option string)
      (t : list event) (n : Z) :
  turn p i o t -> reported p n t -> (0 < n)%Z ->
  raised_after_report p t = false ->
  matched p t.
Proof.
  intros T H N D. unfold reported in H.
  inversion T; subst; in_cases H; injection H as <-; try lia;
    unfold raised_after_report in D; simpl in D;
    rewrite ?Nat.eqb_refl in D; rewrite ?orb_true_r in D;
    try discriminate D.
  unfold matched. simpl. auto 10.
Qed.

(** ** The probe *)

Lemma scan_turn_of (pos : nat) (l : list string) (o : option string)
      (t : list event) :
  scan pos l o t ->
  forall ev p, In ev t -> event_pos ev = Some p ->
               In ev (at_pos p t) /\ exists i o', turn p i o' (at_pos p t).
Proof.
  intros Sc ev p H E. pose proof (in_at_pos p ev t H E) as H'.
  split; [exact H'|].
  destruct (scan_at_pos _ _ _ _ Sc p) as [N | (i & o' & _ & _ & T)].
  - rewrite N in H'. contradiction.
  - exists i, o'. exact T.
Qed.

Lemma truthy_nonempty (s : string) : PyStr.truthy s = true <-> s <> "".
Proof. destruct s; simpl; split; congruence. Qed.

Section ProbeClaims.

Variables World MasterObj : Type.
Variable stack : pysoem World MasterObj.

(** A run of the probe returns, and either the list was empty and nothing
    was called, or it went through the loop. *)
Lemma probe_shape (interfaces : list string) (w : World) :
  exists o f' t,
    probe stack interfaces (start w) = (Returns o, f', t)
    /\ ((interfaces = [] /\ o = None /\ f' = start w
         /\ t = [NoInterfaces])
        \/ scan 0 interfaces o t).
Proof.
  destruct interfaces as [|i rest].
  - exists None, (start w), [NoInterfaces]. split; [reflexivity|].
    left. repeat split; reflexivity.
  - destruct (for_interfaces_scan World MasterObj stack (i :: rest) 0
                                  (start w)) as (o & f' & t & E & Sc).
    exists o, f', t. split; [exact E | right; exact Sc].
Qed.

Ltac run_cases interfaces w :=
  let o := fresh "o" in
  let f' := fresh "f'" in
  let t := fresh "t" in
  let E := fresh "E" in
  let Sc := fresh "Sc" in
  destruct (probe_shape interfaces w)
    as (o & f' & t & E & [(-> & -> & -> & ->) | Sc]);
  rewrite E; unfold result_of, trace_of, frame_of; simpl.


(** X11: if a candidate reports at least one slave and neither lines 81-87
    nor the [close] of line 90 raise for it, then it matched: the probe
    returns its name, no event of the run belongs to a later position, and the
    candidates attempted are the first [p + 1] of the list, in list order. *)
Theorem reported_candidate_is_selected (interfaces : list string) (w : World)
        (p : nat) (n : Z) :
  let x := probe stack interfaces (start w) in
  reported p n (trace_of x) ->
  (0 < n)%Z ->
  raised_after_report p (trace_of x) = false ->
  matched p (trace_of x)
  /\ (exists i, nth_error interfaces p = Some i
                /\ result_of x = Returns (Some i))
  /\ (forall ev q, In ev (trace_of x) -> event_pos ev = Some q -> q <= p)
  /\ tried (trace_of x) = firstn (S p) interfaces.
Proof.
  intros x. subst x. run_cases interfaces w; intros R Pn D.
  - destruct R as [R|[]]. discriminate.
  - assert (M : matched p t).
    { destruct (scan_turn_of _ _ _ _ Sc _ p R eq_refl)
        as (R' & j & o' & T).
      rewrite <- raised_after_report_at_pos in D.
      exact (at_pos_incl _ _ _ (turn_reported_matched _ _ _ _ _ T R' Pn D)). }
    split; [exact M|].
    destruct (scan_matched _ _ _ _ Sc p M) as (_ & A & i & N & ->).
    rewrite Nat.sub_0_r in *.
    split; [|split].
    + exists i. split; [exact N | reflexivity].
    + intros ev q H Q.
      pose proof (scan_positions _ _ _ _ Sc ev q H Q). lia.
    + destruct (scan_attempts _ _ _ _ Sc) as (_ & Tr & _).
      now rewrite Tr, A.
Qed.

(** C3, as amended: the number of attempts is at most the length of the
    list, the candidates attempted being a prefix of it; it equals the
    length when no candidate is selected; when a candidate is selected it
    is the position of that candidate plus one; so it is smaller than the
    length only when a candidate is selected. *)
Theorem attempts_bounded (interfaces : list string) (w : World) :
  let x := probe stack interfaces (start w) in
  attempts (trace_of x) <= List.length interfaces
  /\ tried (trace_of x) = firstn (attempts (trace_of x)) interfaces
  /\ (result_of x = Returns None ->
      attempts (trace_of x) = List.length interfaces)
  /\ (forall i, result_of x = Returns (Some i) ->
                1 <= attempts (trace_of x)
                /\ nth_error interfaces (attempts (trace_of x) - 1) = Some i
                /\ matched (attempts (trace_of x) - 1) (trace_of x))
  /\ (attempts (trace_of x) < List.length interfaces ->
      exists i, result_of x = Returns (Some i)).
Proof.
  intros x. subst x. run_cases interfaces w.
  - repeat split; try reflexivity; try discriminate.
    unfold attempts. simpl. lia.
  - destruct (scan_attempts _ _ _ _ Sc) as (L & Tr & N).
    split; [exact L|]. split; [exact Tr|]. split; [|split].
    + intros H. apply N. congruence.
    + intros i H. injection H as ->.
      exact (scan_selected _ _ _ _ Sc).
    + intros H. destruct o as [i|].
      * exists i. reflexivity.
      * specialize (N eq_refl). lia.
Qed.


(** C5: a run of the probe never raises; an exception raised by the
    constructor, by [open] or by [config_init] for a candidate is logged as
    the error of that candidate; after a logged error the next candidate of
    the list, if there is one, is tried; and the scan stops before the end
    of the list only on a match. *)
Theorem errors_do_not_stop_the_scan (interfaces : list string) (w : World) :
  let x := probe stack interfaces (start w) in
  (exists o, result_of x = Returns o)
  /\ (forall p e,
         In (CallMaster p (Raises e)) (trace_of x)
         \/ (exists j, In (CallOpen p j (Raises e)) (trace_of x))
         \/ In (CallConfigInit p (Raises e)) (trace_of x) ->
         In (Error p e) (trace_of x))
  /\ (forall p e i,
         In (Error p e) (trace_of x) ->
         nth_error interfaces (S p) = Some i ->
         In (Trying (S p) i) (trace_of x))
  /\ (attempts (trace_of x) < List.length interfaces ->
      exists p, matched p (trace_of x)).
Proof.
  intros x. subst x. run_cases interfaces w.
  - split; [eexists; reflexivity|]. split; [|split].
    + intros p e [[H|[]] | [[j [H|[]]] | [H|[]]]]; discriminate.
    + intros p e i [H|[]]. discriminate.
    + unfold attempts. simpl. lia.
  - split; [eexists; reflexivity|]. split; [|split].
    + intros p e H.
      assert (exists ev, In ev t /\ event_pos ev = Some p) as (ev & I & Q).
      { destruct H as [H | [[j H] | H]]; eexists; (split; [exact H|]);
          reflexivity. }
      destruct (scan_turn_of _ _ _ _ Sc ev p I Q) as (_ & i & o' & T).
      apply (at_pos_incl p). apply (turn_failure_logged _ _ _ _ _ T).
      destruct H as [H | [[j H] | H]].
      * left. now apply in_at_pos.
      * right. left. exists j. now apply in_at_pos.
      * right. right. now apply in_at_pos.
    + intros p e i H N.
      destruct (scan_error_continues _ _ _ _ Sc p e H) as [_ C].
      apply C. now rewrite Nat.sub_0_r.
    + intros H. destruct (scan_attempts _ _ _ _ Sc) as (_ & _ & N).
      destruct o as [i|]; [|specialize (N eq_refl); lia].
      destruct (scan_selected _ _ _ _ Sc) as (_ & _ & M).
      eexists. exact M.
Qed.

(** C9: on the empty candidate list the probe returns [None], calls
    nothing on the stack, whose world it leaves as it was, and only prints
    that no interface was found. *)
Theorem empty_list_opens_nothing (w : World) :
  let x := probe stack [] (start w) in
  result_of x = Returns None
  /\ world (frame_of x) = w
  /\ Forall (fun ev => is_call ev = false) (trace_of x)
  /\ trace_of x = [NoInterfaces].
Proof.
  repeat split. repeat constructor.
Qed.

(** What the handler does, whatever [close] does: it returns, falling
    through to the next turn, and the outcome of its [close] goes to the log
    and nowhere else. *)
Lemma except_handler_falls_through (pos : nat) (e : exn)
      (f : Frame World MasterObj) :
  except_handler stack pos e f
  = match master f with
    | None => (Returns None, f, [Error pos e])
    | Some m =>
        (Returns None,
         {| world := snd (close stack m (world f)); master := master f |},
         [Error pos e;
          CallClose pos CloseInHandler (fst (close stack m (world f)))])
    end.
Proof.
  destruct f as [wf [m|]];
    unfold except_handler, try_except, bind, call, print, read_master, ret;
    simpl; [|reflexivity].
  destruct (close stack m wf) as [[[]|e'] w']; reflexivity.
Qed.

(** C10: a candidate whose master object could not be constructed gets no
    [close] call at all; the [close] of the handler is invoked only for a
    candidate whose master object was constructed and whose turn logged an
    error; the handler returns and falls through to the next turn whether
    its [close] returns or raises, the outcome of that call being logged and
    otherwise dropped; so after a [close] that raised in the handler the
    next candidate is tried, and the run itself never raises. *)
Theorem defensive_close_is_guarded_and_suppressed
        (interfaces : list string) (w : World) :
  let x := probe stack interfaces (start w) in
  (forall p e, In (CallMaster p (Raises e)) (trace_of x) ->
               count_close p (trace_of x) = 0)
  /\ (forall p r, In (CallClose p CloseInHandler r) (trace_of x) ->
                  constructed p (trace_of x) = true
                  /\ exists e, In (Error p e) (trace_of x))
  /\ (forall pos e f,
         result_of (except_handler stack pos e f) = Returns None
         /\ forall m, master f = Some m ->
                      frame_of (except_handler stack pos e f)
                      = {| world := snd (close stack m (world f));
                           master := Some m |})
  /\ (forall p e i,
         In (CallClose p CloseInHandler (Raises e)) (trace_of x) ->
         nth_error interfaces (S p) = Some i ->
         In (Trying (S p) i) (trace_of x))
  /\ (exists o, result_of x = Returns o).
Proof.
  intros x. subst x.
  assert (Hh : forall pos e f,
             result_of (except_handler stack pos e f) = Returns None
             /\ forall m, master f = Some m ->
                          frame_of (except_handler stack pos e f)
                          = {| world := snd (close stack m (world f));
                               master := Some m |}).
  { intros pos e f. rewrite except_handler_falls_through.
    destruct (master f) as [m|] eqn:M.
    - split; [reflexivity|]. intros m' H. injection H as <-. reflexivity.
    - split; [reflexivity|]. discriminate. }
  run_cases interfaces w.
  - split; [|split; [|split; [exact Hh|split]]].
    + intros p e [H|[]]. discriminate.
    + intros p r [H|[]]. discriminate.
    + intros p e i [H|[]]. discriminate.
    + eexists; reflexivity.
  - split; [|split; [|split; [exact Hh|split]]].
    + intros p e H.
      destruct (scan_turn_of _ _ _ _ Sc _ p H eq_refl)
        as (H' & i & o' & T).
      rewrite <- count_close_at_pos.
      exact (turn_not_constructed_no_close _ _ _ _ _ T H').
    + intros p r H.
      destruct (scan_turn_of _ _ _ _ Sc _ p H eq_refl)
        as (H' & i & o' & T).
      destruct (turn_handler_close _ _ _ _ _ T H') as (C & e & I).
      rewrite constructed_at_pos in C. split; [exact C|].
      exists e. exact (at_pos_incl _ _ _ I).
    + intros p e i H N.
      destruct (scan_turn_of _ _ _ _ Sc _ p H eq_refl)
        as (H' & j & o' & T).
      destruct (turn_handler_close _ _ _ _ _ T H') as (_ & e' & I).
      apply at_pos_incl in I.
      destruct (scan_error_continues _ _ _ _ Sc p e' I) as [_ C].
      apply C. now rewrite Nat.sub_0_r.
    + eexists; reflexivity.
Qed.


End ProbeClaims.

(** ** The interface source *)

Lemma parse_ip_link_skips (lines : list string) :
  forall interfaces,
    Forall (fun name => matches_skip_pattern name = false) interfaces ->
    Forall (fun name => matches_skip_pattern name = false)
           (parse_ip_link lines interfaces).
Proof.
  induction lines as [|line rest IH]; intros interfaces H; [exact H|].
  cbn [parse_ip_link].
  repeat match goal with
         | |- Forall _ (if ?c then _ else _) => destruct c eqn:?
         end; try (now apply IH).
  apply IH. apply Forall_app. split; [exact H|].
  constructor; [|constructor].
  unfold matches_skip_pattern.
  match goal with
  | K : negb _ && negb _ = true |- _ =>
      apply andb_true_iff in K; destruct K as [K1 K2];
      apply negb_true_iff in K1, K2; now rewrite K1, K2
  end.
Qed.

Lemma ethernet_name_not_skipped (name : string) :
  PyStr.startswith name "en" || PyStr.startswith name "eth" = true ->
  matches_skip_pattern name = false.
Proof.
  unfold matches_skip_pattern, PyStr.startswith.
  destruct name as [|a name]; cbn -[ascii_dec]; [discriminate|].
  destruct (ascii_dec "e" a) as [<-|N].
  - intros _.
    destruct (ascii_dec "l" "e") as [E|_]; [discriminate E|].
    destruct (ascii_dec "v" "e") as [E|_]; [discriminate E|].
    reflexivity.
  - discriminate.
Qed.

Lemma parse_ifconfig_skips (lines : list string) :
  forall interfaces,
    Forall (fun name => matches_skip_pattern name = false) interfaces ->
    Forall (fun name => matches_skip_pattern name = false)
           (parse_ifconfig lines interfaces).
Proof.
  induction lines as [|line rest IH]; intros interfaces H; [exact H|].
  cbn [parse_ifconfig].
  repeat match goal with
         | |- Forall _ (if ?c then _ else _) => destruct c eqn:?
         end; try (now apply IH).
  apply IH. apply Forall_app. split; [exact H|].
  constructor; [|constructor]. now apply ethernet_name_not_skipped.
Qed.

(** C8, as amended: whatever the two commands do, no name of the returned
    candidate list starts with [lo] (the loopback pattern) or with [veth]
    (the virtual Ethernet pattern); these two prefixes are all the pattern
    there is. *)
Theorem loopback_and_virtual_names_excluded (os : Platform) :
  Forall (fun name => PyStr.startswith name "lo" = false
                      /\ PyStr.startswith name "veth" = false)
         (get_network_interfaces os).
Proof.
  assert (H : Forall (fun name => matches_skip_pattern name = false)
                     (get_network_interfaces os)).
  { unfold get_network_interfaces.
    destruct (run_ip_link_show os) as [c|e].
    - destruct (returncode c =? 0)%Z.
      + apply parse_ip_link_skips. constructor.
      + destruct (run_ifconfig os) as [c'|e'].
        * apply parse_ifconfig_skips. constructor.
        * repeat constructor.
    - repeat constructor. }
  eapply Forall_impl; [|exact H].
  intros name K. unfold matches_skip_pattern in K.
  now apply orb_false_iff in K.
Qed.

(** C7, as amended: when a command cannot be run (the invocation of [ip]
    raises, or [ip] exits with a status other than 0 and the invocation of
    [ifconfig] raises) the function returns the fallback list
    eth0, eth1, enp0s3, en0, en9, which is not empty; a command that runs
    and exits with a status other than 0 does not bring the fallback list:
    after such an exit of [ip] the output of [ifconfig] is parsed, whatever the
    status of [ifconfig]; and the returned list is empty only when a command
    ran and no line of the output parsed gave a name. *)
Theorem fallback_when_a_command_cannot_run (os : Platform) :
  (forall e, run_ip_link_show os = Raises e ->
             get_network_interfaces os = fallback_interfaces)
  /\ (forall c e, run_ip_link_show os = Returns c ->
                  returncode c <> 0%Z ->
                  run_ifconfig os = Raises e ->
                  get_network_interfaces os = fallback_interfaces)
  /\ (forall c c', run_ip_link_show os = Returns c ->
                   returncode c <> 0%Z ->
                   run_ifconfig os = Returns c' ->
                   get_network_interfaces os
                   = parse_ifconfig (PyStr.split newline (stdout c')) [])
  /\ fallback_interfaces
     = ["eth0"; "eth1"; "enp0s3"; "en0"; "en9"]
  /\ (get_network_interfaces os = [] ->
      (exists c, run_ip_link_show os = Returns c
                 /\ returncode c = 0%Z
                 /\ parse_ip_link (PyStr.split newline (stdout c)) [] = [])
      \/ (exists c c', run_ip_link_show os = Returns c
                       /\ returncode c <> 0%Z
                       /\ run_ifconfig os = Returns c'
                       /\ parse_ifconfig (PyStr.split newline (stdout c')) []
                          = [])).
Proof.
  unfold get_network_interfaces.
  split; [|split; [|split; [|split]]].
  - intros e ->. reflexivity.
  - intros c e -> N ->. apply Z.eqb_neq in N. now rewrite N.
  - intros c c' -> N ->. apply Z.eqb_neq in N. now rewrite N.
  - reflexivity.
  - destruct (run_ip_link_show os) as [c|e]; [|discriminate].
    destruct (returncode c =? 0)%Z eqn:R.
    + intros H. left. exists c. apply Z.eqb_eq in R.
      repeat split; assumption.
    + apply Z.eqb_neq in R.
      destruct (run_ifconfig os) as [c'|e']; [|discriminate].
      intros H. right. exists c, c'. repeat split; assumption.
Qed.

(** ** Concrete runs *)

(** Two candidates, the first cannot be opened, the second reports one
    slave: the second is selected and the exit status is 0. *)
Example open_failure_then_match :
  Sim.run [Sim.cannot_open; Sim.one_slave] ["eth0"; "eth1"]
  = (Returns (Some "eth1"),
     [Trying 0 "eth0"; CallMaster 0 (Returns tt);
      CallOpen 0 "eth0" (Raises (Exception "could not open interface"));
      Error 0 (Exception "could not open interface");
      CallClose 0 CloseInHandler (Returns tt);
      Trying 1 "eth1"; CallMaster 1 (Returns tt);
      CallOpen 1 "eth1" (Returns tt); CallConfigInit 1 (Returns 1%Z);
      Found 1 1 [Sim.motor1]; CallClose 1 CloseOnFound (Returns tt)]).
Proof. reflexivity. Qed.

(** One candidate that opens and reports no slave. *)
Example single_candidate_without_slaves :
  Sim.run [Sim.silent] ["eth0"]
  = (Returns None,
     [Trying 0 "eth0"; CallMaster 0 (Returns tt);
      CallOpen 0 "eth0" (Returns tt); CallConfigInit 0 (Returns 0%Z);
      NoSlaves 0; CallClose 0 CloseOnNoSlaves (Returns tt); NoneFound]).
Proof. reflexivity. Qed.

(** Three candidates, the second reports slaves: the third is not tried. *)
Example third_candidate_not_tried :
  let r := Sim.run [Sim.silent; Sim.one_slave; Sim.one_slave]
                   ["eth0"; "eth1"; "eth2"] in
  fst r = Returns (Some "eth1") /\ tried (snd r) = ["eth0"; "eth1"].
Proof. split; reflexivity. Qed.

(** The names read from the output of [ip link show]. *)
Example linux_candidates : get_network_interfaces Host.linux = ["eth0"].
Proof. reflexivity. Qed.

(** The first [close] raises after a report of no slave: the handler
    invokes [close] again. *)
Example close_invoked_twice :
  Sim.run [Sim.no_slave_close_raises] ["eth0"]
  = (Returns None,
     [Trying 0 "eth0"; CallMaster 0 (Returns tt);
      CallOpen 0 "eth0" (Returns tt); CallConfigInit 0 (Returns 0%Z);
      NoSlaves 0;
      CallClose 0 CloseOnNoSlaves (Raises (Exception "close failed"));
      Error 0 (Exception "close failed");
      CallClose 0 CloseInHandler (Returns tt); NoneFound]).
Proof. reflexivity. Qed.

(** Witness of X11: the second of two candidates reports a slave and
    nothing raises. *)
Lemma reported_candidate_is_selected_witness :
  let x := probe (Sim.stack [Sim.cannot_open; Sim.one_slave])
                 ["eth0"; "eth1"] (start Sim.boot) in
  reported 1 1%Z (trace_of x)
  /\ matched 1 (trace_of x)
  /\ (exists i, nth_error ["eth0"; "eth1"] 1 = Some i
                /\ result_of x = Returns (Some i))
  /\ (forall ev q, In ev (trace_of x) -> event_pos ev = Some q -> q <= 1)
  /\ tried (trace_of x) = firstn 2 ["eth0"; "eth1"].
Proof.
  assert (R : reported 1 1%Z (trace_of
                (probe (Sim.stack [Sim.cannot_open; Sim.one_slave])
                       ["eth0"; "eth1"] (start Sim.boot)))).
  { unfold reported. vm_compute. auto 20. }
  split; [exact R|].
  exact (reported_candidate_is_selected _ _ _ _ _ 1 1%Z R eq_refl eq_refl).
Defined.


(** C2 at the inputs on which the code fails it: the first of two
    candidates reports one slave and then the [close] of line 90 raises, or
    the terminal cannot print the check mark of line 81; both times the
    handler takes the turn for an error, the second candidate is tried and
    nothing is selected. *)
Theorem reported_match_dropped_on_a_raise :
  (let r := Sim.run [Sim.one_slave_close_raises; Sim.silent]
                    ["eth0"; "eth1"] in
   reported 0 1%Z (snd r)
   /\ fst r = Returns None
   /\ tried (snd r) = ["eth0"; "eth1"]
   /\ ~ spec_first_report_wins ["eth0"; "eth1"] (fst r) (snd r))
  /\ (let r := Sim.run [Sim.one_slave_print_raises; Sim.silent]
                       ["eth0"; "eth1"] in
      reported 0 1%Z (snd r)
      /\ fst r = Returns None
      /\ tried (snd r) = ["eth0"; "eth1"]
      /\ ~ spec_first_report_wins ["eth0"; "eth1"] (fst r) (snd r)).
Proof.
  split; cbv zeta.
  - assert (R : reported 0 1%Z
                  (snd (Sim.run [Sim.one_slave_close_raises; Sim.silent]
                                ["eth0"; "eth1"]))).
    { unfold reported. vm_compute. auto 20. }
    split; [exact R|]. split; [reflexivity|]. split; [reflexivity|].
    intros H. specialize (H 0 1%Z R eq_refl).
    destruct H as [(i & _ & S) _].
    + intros q m L. inversion L.
    + vm_compute in S. discriminate.
  - assert (R : reported 0 1%Z
                  (snd (Sim.run [Sim.one_slave_print_raises; Sim.silent]
                                ["eth0"; "eth1"]))).
    { unfold reported. vm_compute. auto 20. }
    split; [exact R|]. split; [reflexivity|]. split; [reflexivity|].
    intros H. specialize (H 0 1%Z R eq_refl).
    destruct H as [(i & _ & S) _].
    + intros q m L. inversion L.
    + vm_compute in S. discriminate.
Qed.

(** Counterexample to C3 as worded: a single candidate that matches; the
    attempts are as many as the candidates, and there is a match. *)
Lemma attempts_law_counterexample :
  ~ spec_attempts_law
      ["eth0"]
      (fst (Sim.run [Sim.one_slave] ["eth0"]))
      (snd (Sim.run [Sim.one_slave] ["eth0"])).
Proof.
  intros [_ [H _]].
  assert (E : attempts (snd (Sim.run [Sim.one_slave] ["eth0"]))
              = List.length ["eth0"]) by reflexivity.
  apply H in E. vm_compute in E. discriminate.
Qed.



(** Counterexample to C8 as worded: on a host with bridges and a tunnel the
    candidates are eth0, docker0, br0, virbr0 and tun0. *)
Lemma bridge_names_counterexample :
  ~ spec_no_virtual_or_bridge Host.with_bridges.
Proof.
  unfold spec_no_virtual_or_bridge. intros H.
  assert (E : get_network_interfaces Host.with_bridges
              = ["eth0"; "docker0"; "br0"; "virbr0"; "tun0"])
    by reflexivity.
  rewrite E in H. inversion H as [|? ? _ H1]; subst.
  inversion H1 as [|? ? D _]; subst. vm_compute in D. discriminate.
Qed.

(** Counterexample to C7 as worded: both commands run and exit with status
    1; the list returned is empty, not the fallback list. *)
Lemma fallback_counterexample : ~ spec_fallback Host.both_exit_1.
Proof.
  intros H. specialize (H eq_refl). vm_compute in H. discriminate.
Qed.

(** * Further properties of the code *)

(** ** Strings *)

Lemma contains_cons (sub : string) (c : ascii) (s : string) :
  PyStr.contains sub s = true -> PyStr.contains sub (String c s) = true.
Proof. intros H. cbn [PyStr.contains]. rewrite H. apply orb_true_r. Qed.

Lemma contains_app_r (sub a b : string) :
  PyStr.contains sub b = true -> PyStr.contains sub (a ++ b)%string = true.
Proof.
  intros H. induction a as [|c a IH]; [exact H|].
  cbn [String.append]. now apply contains_cons.
Qed.

Lemma lower_app (a b : string) :
  PyStr.lower (a ++ b)%string = (PyStr.lower a ++ PyStr.lower b)%string.
Proof.
  induction a as [|c a IH]; [reflexivity|].
  cbn [String.append PyStr.lower]. now rewrite IH.
Qed.

Lemma prefix_colon (c : ascii) (s : string) :
  String.prefix ":" (String c s) = Ascii.eqb c colon.
Proof.
  cbn -[ascii_dec]. destruct (ascii_dec ":" c) as [<-|N].
  - destruct s; reflexivity.
  - symmetry. apply Ascii.eqb_neq. intros E. apply N. now rewrite E.
Qed.

Lemma contains_colon_cons (c : ascii) (s : string) :
  PyStr.contains ":" (String c s)
  = Ascii.eqb c colon || PyStr.contains ":" s.
Proof. cbn [PyStr.contains]. now rewrite prefix_colon. Qed.

Lemma contains_colon_mid (a s : string) :
  PyStr.contains ":" (a ++ String colon s)%string = true.
Proof.
  apply contains_app_r. rewrite contains_colon_cons.
  now rewrite Ascii.eqb_refl.
Qed.

Lemma split_nonempty (sep : ascii) (s : string) : PyStr.split sep s <> [].
Proof.
  destruct s as [|c s]; cbn [PyStr.split]; [discriminate|].
  destruct (Ascii.eqb c sep); [discriminate|].
  destruct (PyStr.split sep s); discriminate.
Qed.

Lemma split_before_colon (a s : string) :
  PyStr.contains ":" a = false ->
  PyStr.split colon (a ++ String colon s)%string = a :: PyStr.split colon s.
Proof.
  induction a as [|c a IH]; intros H.
  - cbn [String.append PyStr.split]. now rewrite Ascii.eqb_refl.
  - rewrite contains_colon_cons in H. apply orb_false_iff in H.
    destruct H as [C H]. cbn [String.append PyStr.split].
    rewrite C, (IH H). reflexivity.
Qed.

(** [s.split(sep)] of two texts joined by the separator. *)
Lemma split_join (sep : ascii) (a b : string) :
  PyStr.split sep (a ++ String sep b)%string
  = PyStr.split sep a ++ PyStr.split sep b.
Proof.
  induction a as [|c a IH].
  - cbn [String.append PyStr.split]. now rewrite Ascii.eqb_refl.
  - cbn [String.append PyStr.split]. rewrite IH.
    destruct (Ascii.eqb c sep); [reflexivity|].
    destruct (PyStr.split sep a) as [|h t] eqn:E; [|reflexivity].
    exfalso. exact (split_nonempty _ _ E).
Qed.

(** ** The two parsing loops *)

Lemma parse_ip_link_from (lines : list string) :
  forall interfaces,
    parse_ip_link lines interfaces = interfaces ++ parse_ip_link lines [].
Proof.
  induction lines as [|line rest IH]; intros interfaces.
  - cbn [parse_ip_link]. now rewrite app_nil_r.
  - cbn [parse_ip_link].
    repeat match goal with
           | |- (if ?c then _ else _) = _ => destruct c
           end; try apply IH.
    rewrite IH. rewrite (IH ([] ++ _)). now rewrite app_assoc.
Qed.

Lemma parse_ifconfig_from (lines : list string) :
  forall interfaces,
    parse_ifconfig lines interfaces = interfaces ++ parse_ifconfig lines [].
Proof.
  induction lines as [|line rest IH]; intros interfaces.
  - cbn [parse_ifconfig]. now rewrite app_nil_r.
  - cbn [parse_ifconfig].
    repeat match goal with
           | |- (if ?c then _ else _) = _ => destruct c
           end; try apply IH.
    rewrite IH. rewrite (IH ([] ++ _)). now rewrite app_assoc.
Qed.

Lemma parse_ip_link_app (l1 l2 : list string) :
  forall interfaces,
    parse_ip_link (l1 ++ l2) interfaces
    = parse_ip_link l2 (parse_ip_link l1 interfaces).
Proof.
  induction l1 as [|line rest IH]; intros interfaces; [reflexivity|].
  cbn [app parse_ip_link].
  repeat match goal with
         | |- (if ?c then _ else _) = _ => destruct c
         end; apply IH.
Qed.

Lemma parse_ifconfig_app (l1 l2 : list string) :
  forall interfaces,
    parse_ifconfig (l1 ++ l2) interfaces
    = parse_ifconfig l2 (parse_ifconfig l1 interfaces).
Proof.
  induction l1 as [|line rest IH]; intros interfaces; [reflexivity|].
  cbn [app parse_ifconfig].
  repeat match goal with
         | |- (if ?c then _ else _) = _ => destruct c
         end; apply IH.
Qed.

(** X1: a header line of [ip link show], that is an index without colon,
    a colon and a space, a name without colon and without white space around
    it (what [str.strip()] would remove, U+0085 and U+00A0 included), a
    colon, and a rest that mentions [state] in any letter case, adds
    exactly that name to the candidates, unless the name starts with [lo] or
    with [veth], in which case it adds nothing. *)
Theorem ip_header_line_parsed (idx name rest : string)
        (interfaces : list string) :
  PyStr.contains ":" idx = false ->
  PyStr.contains ":" name = false ->
  PyStr.strip name = name ->
  PyStr.contains "state" (PyStr.lower rest) = true ->
  parse_ip_link [(idx ++ ": " ++ name ++ ":" ++ rest)%string] interfaces
  = if matches_skip_pattern name then interfaces else interfaces ++ [name].
Proof.
  intros Hidx Hname Hstrip Hstate.
  set (line := (idx ++ ": " ++ name ++ ":" ++ rest)%string).
  assert (L1 : PyStr.contains ":" line = true)
    by apply (contains_colon_mid idx).
  assert (L2 : PyStr.contains "state" (PyStr.lower line) = true).
  { unfold line. rewrite lower_app. apply contains_app_r.
    change (": " ++ name ++ ":" ++ rest)%string
      with (String colon (String " " (name ++ ":" ++ rest)))%string.
    cbn [PyStr.lower]. do 2 apply contains_cons.
    rewrite lower_app. apply contains_app_r.
    change (":" ++ rest)%string with (String colon rest).
    cbn [PyStr.lower]. now apply contains_cons. }
  assert (L3 : PyStr.split colon line
               = idx :: String " " name :: PyStr.split colon rest).
  { unfold line.
    change (": " ++ name ++ ":" ++ rest)%string
      with (String colon (String " " name ++ String colon rest))%string.
    rewrite (split_before_colon idx _ Hidx).
    rewrite (split_before_colon (String " " name)); [reflexivity|].
    rewrite contains_colon_cons, Hname. reflexivity. }
  assert (L4 : PyStr.strip (String " " name) = name).
  { unfold PyStr.strip in *. cbn [PyStr.lstrip].
    change (PyStr.isspace " ") with true. cbv iota. exact Hstrip. }
  cbn [parse_ip_link]. fold line. rewrite L1, L2, L3.
  cbn [andb List.length Nat.leb nth]. rewrite L4.
  unfold matches_skip_pattern.
  destruct (PyStr.startswith name "lo"); [reflexivity|].
  destruct (PyStr.startswith name "veth"); reflexivity.
Qed.

(** X2: a header line of [ifconfig], that is a name without colon, a colon,
    and a rest that mentions [flags=], adds exactly that name to the
    candidates when the name starts with [en] or with [eth], and nothing
    otherwise. *)
Theorem ifconfig_header_line_parsed (name rest : string)
        (interfaces : list string) :
  PyStr.contains ":" name = false ->
  PyStr.contains "flags=" rest = true ->
  parse_ifconfig [(name ++ ":" ++ rest)%string] interfaces
  = if PyStr.startswith name "en" || PyStr.startswith name "eth"
    then interfaces ++ [name] else interfaces.
Proof.
  intros Hname Hflags.
  set (line := (name ++ ":" ++ rest)%string).
  assert (L1 : PyStr.contains ":" line = true)
    by apply (contains_colon_mid name).
  assert (L2 : PyStr.contains "flags=" line = true).
  { unfold line. apply contains_app_r.
    change (":" ++ rest)%string with (String colon rest).
    now apply contains_cons. }
  assert (L3 : PyStr.split colon line = name :: PyStr.split colon rest)
    by apply (split_before_colon name rest Hname).
  cbn [parse_ifconfig]. fold line. rewrite L1, L2, L3.
  cbn [andb nth].
  destruct (PyStr.startswith name "en" || PyStr.startswith name "eth");
    reflexivity.
Qed.

(** X3: the output of a command is read line by line: the candidates read
    from two texts joined by a line feed are the candidates of the first text
    followed by those of the second, for [ip link show] and for [ifconfig]
    alike. *)
Theorem output_read_line_by_line (a b ip_out : string) (status rc : Z)
        (other : res CompletedProcess) :
  get_network_interfaces (ip_prints (a ++ String newline b)%string other)
  = get_network_interfaces (ip_prints a other)
    ++ get_network_interfaces (ip_prints b other)
  /\ (status <> 0%Z ->
      get_network_interfaces
        (ifconfig_prints status ip_out
           {| returncode := rc; stdout := (a ++ String newline b)%string |})
      = get_network_interfaces
          (ifconfig_prints status ip_out {| returncode := rc; stdout := a |})
        ++ get_network_interfaces
             (ifconfig_prints status ip_out
                {| returncode := rc; stdout := b |})).
Proof.
  split.
  - unfold get_network_interfaces, ip_prints. cbn.
    rewrite split_join, parse_ip_link_app.
    apply parse_ip_link_from.
  - intros N. apply Z.eqb_neq in N.
    unfold get_network_interfaces, ifconfig_prints. cbn. rewrite N.
    rewrite split_join, parse_ifconfig_app.
    apply parse_ifconfig_from.
Qed.

(** ** More on one turn and on the loop *)

Lemma precedes_filter (f : event -> bool) (a b : event) (l : list event) :
  precedes a b (filter f l) -> precedes a b l.
Proof.
  induction l as [|x l IH]; cbn [filter]; intros H; [inversion H|].
  destruct (f x).
  - inversion H as [t I | y t P]; subst.
    + apply precedes_here. now apply filter_In in I.
    + apply precedes_later. now apply IH.
  - apply precedes_later. now apply IH.
Qed.

Ltac find_order :=
  repeat first [ solve [apply precedes_here; simpl; auto 10]
               | apply precedes_later ].

Lemma turn_protocol (p : nat) (i : string) (o : option string)
      (t : list event) :
  turn p i o t ->
  (forall j r, In (CallOpen p j r) t ->
               j = i /\ precedes (CallMaster p (Returns tt)) (CallOpen p j r) t)
  /\ (forall r, In (CallConfigInit p r) t ->
                precedes (CallOpen p i (Returns tt)) (CallConfigInit p r) t)
  /\ (forall s r, In (CallClose p s r) t ->
                  exists r', precedes (CallOpen p i r') (CallClose p s r) t)
  /\ count_master p t = 1
  /\ count_config_init p t <= 1.
Proof.
  intros T. split; [|split; [|split; [|split]]].
  - intros j r H. inversion T; subst; in_cases H;
      inversion H; subst; (split; [reflexivity | find_order]).
  - intros r H. inversion T; subst; in_cases H;
      inversion H; subst; find_order.
  - intros s r H. inversion T; subst; in_cases H;
      inversion H; subst; eexists; find_order.
  - inversion T; subst; unfold count_master; simpl;
      rewrite ?Nat.eqb_refl; reflexivity.
  - inversion T; subst; unfold count_config_init; simpl;
      rewrite ?Nat.eqb_refl; simpl; lia.
Qed.

Lemma count_config_init_at_pos (p : nat) (t : list event) :
  count_config_init p (at_pos p t) = count_config_init p t.
Proof.
  unfold count_config_init, at_pos. rewrite filter_refines; [reflexivity|].
  intros [] H; simpl in *; try discriminate; exact H.
Qed.

Lemma count_master_at_pos (p : nat) (t : list event) :
  count_master p (at_pos p t) = count_master p t.
Proof.
  unfold count_master, at_pos. rewrite filter_refines; [reflexivity|].
  intros [] H; simpl in *; try discriminate; exact H.
Qed.

(** The turn of a position is on the candidate at that position. *)
Lemma scan_turn_named (pos : nat) (l : list string) (o : option string)
      (t : list event) :
  scan pos l o t ->
  forall ev p, In ev t -> event_pos ev = Some p ->
               In ev (at_pos p t)
               /\ exists i o', nth_error l (p - pos) = Some i
                               /\ turn p i o' (at_pos p t).
Proof.
  intros Sc ev p H E. pose proof (in_at_pos p ev t H E) as H'.
  split; [exact H'|].
  destruct (scan_at_pos _ _ _ _ Sc p) as [N | (i & o' & K & _ & T)].
  - rewrite N in H'. contradiction.
  - exists i, o'. split; assumption.
Qed.

Lemma turn_report (p : nat) (i : string) (o : option string)
      (t : list event) :
  turn p i o t ->
  ((exists n info, In (Found p n info) t)
   \/ In (NoSlaves p) t
   \/ exists e, In (Error p e) t)
  /\ (forall n info, In (Found p n info) t -> ~ In (NoSlaves p) t)
  /\ (forall e e', In (Error p e) t -> In (Error p e') t -> e = e').
Proof.
  intros T. split; [|split].
  - inversion T; subst; simpl; eauto 12.
  - intros n info H K. inversion T; subst; in_cases H; in_cases K.
  - intros e e' H K.
    inversion T; subst; in_cases H; in_cases K; congruence.
Qed.

Lemma turn_count_edge (p : nat) (i : string) (o : option string)
      (t : list event) :
  turn p i o t ->
  (forall n info, In (Found p n info) t -> (0 < n)%Z /\ reported p n t)
  /\ (forall n, reported p n t -> (n <= 0)%Z ->
                In (NoSlaves p) t
                /\ ~ matched p t
                /\ forall m info, ~ In (Found p m info) t).
Proof.
  intros T. split.
  - intros n info H. unfold reported.
    inversion T; subst; in_cases H; inversion H; subst;
      (split; [assumption | simpl; auto 10]).
  - intros n R N. unfold reported, matched in *.
    inversion T; subst; in_cases R; inversion R; subst; try lia;
      (split; [simpl; auto 10|]);
      (split; [intros M; in_cases M | intros m info F; in_cases F]).
Qed.

Lemma turn_calls (p : nat) (i : string) (o : option string)
      (t : list event) :
  turn p i o t -> 1 <= count_calls t <= 5.
Proof.
  intros T. inversion T; subst; unfold count_calls; simpl; lia.
Qed.

Lemma count_calls_app (t t' : list event) :
  count_calls (t ++ t') = count_calls t + count_calls t'.
Proof. unfold count_calls. now rewrite filter_app, length_app. Qed.

Lemma scan_calls (pos : nat) (l : list string) (o : option string)
      (t : list event) :
  scan pos l o t -> attempts t <= count_calls t <= 5 * attempts t.
Proof.
  induction 1 as [pos | pos i rest t T | pos i rest t t' o T Sc IH].
  - unfold count_calls, attempts. simpl. lia.
  - destruct (turn_attempts _ _ _ _ T) as [A _].
    pose proof (turn_calls _ _ _ _ T). lia.
  - destruct (turn_attempts _ _ _ _ T) as [A _].
    pose proof (turn_calls _ _ _ _ T).
    rewrite attempts_app, count_calls_app. lia.
Qed.

Lemma candidates_not_skipped (os : Platform) :
  Forall (fun name => matches_skip_pattern name = false)
         (get_network_interfaces os).
Proof.
  unfold get_network_interfaces.
  destruct (run_ip_link_show os) as [c|e].
  - destruct (returncode c =? 0)%Z.
    + apply parse_ip_link_skips. constructor.
    + destruct (run_ifconfig os) as [c'|e'].
      * apply parse_ifconfig_skips. constructor.
      * repeat constructor.
  - repeat constructor.
Qed.

Lemma turn_trying_name (p : nat) (i j : string) (o : option string)
      (t : list event) :
  turn p j o t -> In (Trying p i) t -> i = j.
Proof.
  intros T H. inversion T; subst; in_cases H; congruence.
Qed.

(** ** More on the probe *)

Section ProbeExtras.

Variables World MasterObj : Type.
Variable stack : pysoem World MasterObj.

Ltac probe_cases interfaces w :=
  let o := fresh "o" in
  let f' := fresh "f'" in
  let t := fresh "t" in
  let E := fresh "E" in
  let Sc := fresh "Sc" in
  let N := fresh "N" in
  destruct (probe_shape World MasterObj stack interfaces w)
    as (o & f' & t & E & [(N & -> & -> & ->) | Sc]);
  rewrite E; unfold result_of, trace_of, frame_of; simpl;
  [try rewrite N in * |].

(** X4: the interface the whole detection returns is one of the candidates
    that [get_network_interfaces] listed, so its name starts neither with
    [lo] nor with [veth]. *)
Theorem detected_interface_is_a_candidate (os : Platform) (w : World)
        (i : string) :
  result_of (detect_ethercat_interface stack os (start w))
  = Returns (Some i) ->
  In i (get_network_interfaces os)
  /\ PyStr.startswith i "lo" = false
  /\ PyStr.startswith i "veth" = false.
Proof.
  unfold detect_ethercat_interface.
  probe_cases (get_network_interfaces os) w; intros H; [discriminate|].
  injection H as ->.
  destruct (scan_selected _ _ _ _ Sc) as (_ & N & _).
  apply nth_error_In in N. split; [exact N|].
  pose proof (candidates_not_skipped os) as F.
  rewrite Forall_forall in F. apply F in N.
  unfold matches_skip_pattern in N. now apply orb_false_iff in N.
Qed.

(** X5: the calls of a run follow the order of a session.  [open] is
    invoked for a candidate with the name of that candidate and after the
    constructor returned; [config_init] is invoked only after [open] returned
    on that candidate; [close] is invoked only after [open] was invoked; and
    for no candidate is the constructor or [config_init] invoked twice. *)
Theorem calls_follow_the_session_order (interfaces : list string)
        (w : World) :
  let tr := trace_of (probe stack interfaces (start w)) in
  (forall p j r, In (CallOpen p j r) tr ->
                 nth_error interfaces p = Some j
                 /\ precedes (CallMaster p (Returns tt)) (CallOpen p j r) tr)
  /\ (forall p r, In (CallConfigInit p r) tr ->
                  exists j, nth_error interfaces p = Some j
                            /\ precedes (CallOpen p j (Returns tt))
                                        (CallConfigInit p r) tr)
  /\ (forall p s r, In (CallClose p s r) tr ->
                    exists j r', nth_error interfaces p = Some j
                                 /\ precedes (CallOpen p j r')
                                             (CallClose p s r) tr)
  /\ (forall p, count_master p tr <= 1 /\ count_config_init p tr <= 1).
Proof.
  intros tr. subst tr. probe_cases interfaces w.
  - split; [|split; [|split]].
    + intros p j r [H|[]]. discriminate.
    + intros p r [H|[]]. discriminate.
    + intros p s r [H|[]]. discriminate.
    + intros p. unfold count_master, count_config_init. simpl. lia.
  - split; [|split; [|split]].
    + intros p j r H.
      destruct (scan_turn_named _ _ _ _ Sc _ p H eq_refl)
        as (H' & i & o' & N & T).
      rewrite Nat.sub_0_r in N.
      destruct (turn_protocol _ _ _ _ T) as (P & _).
      destruct (P j r H') as [-> Q]. split; [exact N|].
      exact (precedes_filter _ _ _ _ Q).
    + intros p r H.
      destruct (scan_turn_named _ _ _ _ Sc _ p H eq_refl)
        as (H' & i & o' & N & T).
      rewrite Nat.sub_0_r in N.
      destruct (turn_protocol _ _ _ _ T) as (_ & P & _).
      exists i. split; [exact N|].
      exact (precedes_filter _ _ _ _ (P r H')).
    + intros p s r H.
      destruct (scan_turn_named _ _ _ _ Sc _ p H eq_refl)
        as (H' & i & o' & N & T).
      rewrite Nat.sub_0_r in N.
      destruct (turn_protocol _ _ _ _ T) as (_ & _ & P & _).
      destruct (P s r H') as [r' Q].
      exists i, r'. split; [exact N|].
      exact (precedes_filter _ _ _ _ Q).
    + intros p.
      rewrite <- count_master_at_pos, <- count_config_init_at_pos.
      destruct (scan_at_pos _ _ _ _ Sc p) as [N | (i & o' & _ & _ & T)].
      * rewrite N. unfold count_master, count_config_init. simpl. lia.
      * destruct (turn_protocol _ _ _ _ T) as (_ & _ & _ & M & C). lia.
Qed.

(** X6: every candidate that was tried is the candidate at its position of
    the list and gets an outcome printed: the slaves found, or no slaves, or
    an error; the line of the slaves found and the line of no slaves never
    both; and at most one error. *)
Theorem every_attempt_reports (interfaces : list string) (w : World) :
  let tr := trace_of (probe stack interfaces (start w)) in
  (forall p i, In (Trying p i) tr ->
               nth_error interfaces p = Some i
               /\ ((exists n info, In (Found p n info) tr)
                   \/ In (NoSlaves p) tr
                   \/ exists e, In (Error p e) tr))
  /\ (forall p n info, In (Found p n info) tr -> ~ In (NoSlaves p) tr)
  /\ (forall p e e', In (Error p e) tr -> In (Error p e') tr -> e = e').
Proof.
  intros tr. subst tr. probe_cases interfaces w.
  - split; [|split].
    + intros p i [H|[]]. discriminate.
    + intros p n info [H|[]]. discriminate.
    + intros p e e' [H|[]]. discriminate.
  - split; [|split].
    + intros p i H.
      destruct (scan_turn_named _ _ _ _ Sc _ p H eq_refl)
        as (H' & j & o' & N & T).
      rewrite Nat.sub_0_r in N.
      assert (i = j) as -> by exact (turn_trying_name _ _ _ _ _ T H').
      split; [exact N|].
      destruct (turn_report _ _ _ _ T) as (R & _).
      destruct R as [(n & info & R) | [R | (e & R)]].
      * left. exists n, info. exact (at_pos_incl _ _ _ R).
      * right. left. exact (at_pos_incl _ _ _ R).
      * right. right. exists e. exact (at_pos_incl _ _ _ R).
    + intros p n info H K.
      destruct (scan_turn_named _ _ _ _ Sc _ p H eq_refl)
        as (H' & j & o' & _ & T).
      destruct (turn_report _ _ _ _ T) as (_ & R & _).
      apply (R n info H'). now apply in_at_pos.
    + intros p e e' H K.
      destruct (scan_turn_named _ _ _ _ Sc _ p H eq_refl)
        as (H' & j & o' & _ & T).
      destruct (turn_report _ _ _ _ T) as (_ & _ & R).
      apply (R e e' H'). now apply in_at_pos.
Qed.

(** X7: the slaves are printed only for a candidate whose [config_init]
    returned a positive count; a count that is zero or negative prints the
    line of no slaves for that candidate, prints no slave and does not select
    it. *)
Theorem nonpositive_count_means_no_slaves (interfaces : list string)
        (w : World) :
  let tr := trace_of (probe stack interfaces (start w)) in
  (forall p n info, In (Found p n info) tr -> (0 < n)%Z /\ reported p n tr)
  /\ (forall p n, reported p n tr -> (n <= 0)%Z ->
                  In (NoSlaves p) tr
                  /\ ~ matched p tr
                  /\ forall m info, ~ In (Found p m info) tr).
Proof.
  intros tr. subst tr. probe_cases interfaces w.
  - split.
    + intros p n info [H|[]]. discriminate.
    + intros p n [H|[]]. discriminate.
  - split.
    + intros p n info H.
      destruct (scan_turn_named _ _ _ _ Sc _ p H eq_refl)
        as (H' & j & o' & _ & T).
      destruct (turn_count_edge _ _ _ _ T) as (R & _).
      destruct (R n info H') as [Pn Q]. split; [exact Pn|].
      exact (at_pos_incl _ _ _ Q).
    + intros p n H Le.
      destruct (scan_turn_named _ _ _ _ Sc _ p H eq_refl)
        as (H' & j & o' & _ & T).
      destruct (turn_count_edge _ _ _ _ T) as (_ & R).
      destruct (R n H' Le) as (A & B & C).
      split; [exact (at_pos_incl _ _ _ A)|]. split.
      * intros M. apply B. now apply in_at_pos.
      * intros m info F. apply (C m info). now apply in_at_pos.
Qed.

(** X8: a run makes at least one and at most five calls into the stack for
    each candidate it tries (the constructor, [open], [config_init] and up to
    two [close]) and none for a candidate it does not try; hence at most five
    times the length of the list in all. *)
Theorem calls_bounded (interfaces : list string) (w : World) :
  let tr := trace_of (probe stack interfaces (start w)) in
  (forall p i, In (Trying p i) tr ->
               1 <= count_calls (at_pos p tr) <= 5)
  /\ (forall p, (forall i, ~ In (Trying p i) tr) ->
                count_calls (at_pos p tr) = 0)
  /\ attempts tr <= count_calls tr
  /\ count_calls tr <= 5 * attempts tr
  /\ count_calls tr <= 5 * List.length interfaces.
Proof.
  intros tr. subst tr. probe_cases interfaces w.
  - split; [intros p i [H|[]]; discriminate H|].
    split; [reflexivity|]. unfold count_calls, attempts. simpl. lia.
  - split; [|split].
    + intros p i H.
      destruct (scan_turn_named _ _ _ _ Sc _ p H eq_refl)
        as (_ & j & o' & _ & T).
      exact (turn_calls _ _ _ _ T).
    + intros p H.
      destruct (scan_at_pos _ _ _ _ Sc p) as [N | (i & o' & _ & _ & T)].
      * now rewrite N.
      * exfalso. apply (H i).
        exact (at_pos_incl _ _ _ (turn_head _ _ _ _ T)).
    + pose proof (scan_calls _ _ _ _ Sc).
      destruct (scan_attempts _ _ _ _ Sc) as (L & _). lia.
Qed.

End ProbeExtras.

(** ** The shape of the names *)

Lemma split_parts_no_colon (s : string) :
  Forall (fun part => PyStr.contains ":" part = false) (PyStr.split colon s).
Proof.
  induction s as [|c s IH]; cbn [PyStr.split].
  - repeat constructor.
  - destruct (Ascii.eqb c colon) eqn:C.
    + constructor; [reflexivity | exact IH].
    + destruct (PyStr.split colon s) as [|h t].
      * constructor; [|constructor].
        rewrite contains_colon_cons, C. reflexivity.
      * inversion IH as [|? ? Hh Ht]; subst. constructor; [|exact Ht].
        rewrite contains_colon_cons, C, Hh. reflexivity.
Qed.

Lemma nth_keeps {A : Type} (P : A -> Prop) (l : list A) (d : A) (n : nat) :
  Forall P l -> P d -> P (nth n l d).
Proof.
  intros F D. revert n.
  induction F as [|a l Pa _ IH]; intros [|n]; simpl; auto.
Qed.

Lemma lstrip_no_colon (s : string) :
  PyStr.contains ":" s = false -> PyStr.contains ":" (PyStr.lstrip s) = false.
Proof.
  induction s as [|c s IH]; intros H; [exact H|].
  cbn [PyStr.lstrip]. destruct (PyStr.isspace c); [|exact H].
  apply IH. rewrite contains_colon_cons in H.
  now apply orb_false_iff in H.
Qed.

Lemma rstrip_no_colon (s : string) :
  PyStr.contains ":" s = false -> PyStr.contains ":" (PyStr.rstrip s) = false.
Proof.
  induction s as [|c s IH]; intros H; [exact H|].
  rewrite contains_colon_cons in H. apply orb_false_iff in H.
  destruct H as [C H]. specialize (IH H). cbn [PyStr.rstrip].
  destruct (PyStr.rstrip s) as [|d r].
  - destruct (PyStr.isspace c); [reflexivity|].
    rewrite contains_colon_cons, C. reflexivity.
  - rewrite contains_colon_cons, C, IH. reflexivity.
Qed.

Lemma rstrip_rstrip (s : string) :
  PyStr.rstrip (PyStr.rstrip s) = PyStr.rstrip s.
Proof.
  induction s as [|c s IH]; [reflexivity|].
  cbn [PyStr.rstrip]. destruct (PyStr.rstrip s) as [|d r] eqn:R.
  - destruct (PyStr.isspace c) eqn:W; [reflexivity|].
    cbn [PyStr.rstrip]. now rewrite W.
  - cbn [PyStr.rstrip]. cbn [PyStr.rstrip] in IH.
    destruct (PyStr.rstrip r) as [|d' r'].
    + destruct (PyStr.isspace d); [discriminate IH|]. now rewrite IH.
    + now rewrite IH.
Qed.

(** A text that is empty or starts with a character that is no white
    space. *)
Lemma lstrip_fixed (s : string) :
  match s with
  | EmptyString => True
  | String c _ => PyStr.isspace c = false
  end ->
  PyStr.lstrip s = s.
Proof.
  destruct s as [|c s]; [reflexivity|]. intros H.
  cbn [PyStr.lstrip]. now rewrite H.
Qed.

Lemma lstrip_head (s : string) :
  match PyStr.lstrip s with
  | EmptyString => True
  | String c _ => PyStr.isspace c = false
  end.
Proof.
  induction s as [|c s IH]; [exact I|].
  cbn [PyStr.lstrip]. destruct (PyStr.isspace c) eqn:W; [exact IH | exact W].
Qed.

Lemma rstrip_head (s : string) :
  match s with
  | EmptyString => True
  | String c _ => PyStr.isspace c = false
  end ->
  match PyStr.rstrip s with
  | EmptyString => True
  | String c _ => PyStr.isspace c = false
  end.
Proof.
  destruct s as [|c s]; [trivial|]. intros W.
  cbn [PyStr.rstrip]. destruct (PyStr.rstrip s).
  - now rewrite W.
  - exact W.
Qed.

Lemma strip_strip (s : string) : PyStr.strip (PyStr.strip s) = PyStr.strip s.
Proof.
  unfold PyStr.strip.
  rewrite (lstrip_fixed (PyStr.rstrip (PyStr.lstrip s))).
  - apply rstrip_rstrip.
  - apply rstrip_head, lstrip_head.
Qed.

Lemma parse_ip_link_all (P : string -> Prop) (lines : list string) :
  (forall line, P (PyStr.strip (nth 1 (PyStr.split colon line) ""))) ->
  forall interfaces,
    Forall P interfaces -> Forall P (parse_ip_link lines interfaces).
Proof.
  intros K. induction lines as [|line rest IH]; intros interfaces H;
    [exact H|].
  cbn [parse_ip_link].
  repeat match goal with
         | |- Forall _ (if ?c then _ else _) => destruct c
         end; try (now apply IH).
  apply IH. apply Forall_app. split; [exact H|].
  constructor; [apply K | constructor].
Qed.

Lemma parse_ifconfig_all (P : string -> Prop) (lines : list string) :
  (forall line,
      PyStr.startswith (nth 0 (PyStr.split colon line) "") "en"
      || PyStr.startswith (nth 0 (PyStr.split colon line) "") "eth" = true ->
      P (nth 0 (PyStr.split colon line) "")) ->
  forall interfaces,
    Forall P interfaces -> Forall P (parse_ifconfig lines interfaces).
Proof.
  intros K. induction lines as [|line rest IH]; intros interfaces H;
    [exact H|].
  cbn [parse_ifconfig].
  repeat match goal with
         | |- Forall _ (if ?c then _ else _) => destruct c eqn:?
         end; try (now apply IH).
  apply IH. apply Forall_app. split; [exact H|].
  constructor; [now apply K | constructor].
Qed.

(** X9: when [ip link show] exits with status 0, every candidate has no
    white space around it, the white space being that of [str.strip()] on
    text of code points below 256 (stripping the candidate again changes
    nothing), and contains no colon. *)
Theorem ip_names_are_stripped (out : string) (other : res CompletedProcess) :
  Forall (fun name => PyStr.strip name = name
                      /\ PyStr.contains ":" name = false)
         (get_network_interfaces (ip_prints out other)).
Proof.
  unfold get_network_interfaces, ip_prints. cbn.
  apply parse_ip_link_all; [|constructor].
  intros line. split; [apply strip_strip|].
  unfold PyStr.strip. apply rstrip_no_colon, lstrip_no_colon.
  apply nth_keeps; [apply split_parts_no_colon | reflexivity].
Qed.

(** X10: when [ip link show] exits with a status other than 0 and
    [ifconfig] completes, every candidate starts with [en] or with [eth] and
    contains no colon, whatever the status of [ifconfig]. *)
Theorem ifconfig_names_are_ethernet (status : Z) (ip_out : string)
        (c : CompletedProcess) :
  status <> 0%Z ->
  Forall (fun name =>
            PyStr.startswith name "en" || PyStr.startswith name "eth" = true
            /\ PyStr.contains ":" name = false)
         (get_network_interfaces (ifconfig_prints status ip_out c)).
Proof.
  intros N. apply Z.eqb_neq in N.
  unfold get_network_interfaces, ifconfig_prints. cbn. rewrite N.
  apply parse_ifconfig_all; [|constructor].
  intros line K. split; [exact K|].
  apply nth_keeps; [apply split_parts_no_colon | reflexivity].
Qed.

(** ** Concrete instances of the further properties *)

(** Witness of X1: the header line of eth0. *)
Lemma ip_header_line_parsed_witness :
  parse_ip_link
    ["2: eth0: <BROADCAST,MULTICAST,UP,LOWER_UP> mtu 1500 qdisc mq state UP"]
    []
  = ["eth0"].
Proof.
  exact (ip_header_line_parsed
           "2" "eth0" " <BROADCAST,MULTICAST,UP,LOWER_UP> mtu 1500 qdisc mq state UP"
           [] eq_refl eq_refl eq_refl eq_refl).
Defined.

(** Witness of X2: the header line of en0. *)
Lemma ifconfig_header_line_parsed_witness :
  parse_ifconfig ["en0: flags=8863<UP,BROADCAST,RUNNING> mtu 1500"] []
  = ["en0"].
Proof.
  exact (ifconfig_header_line_parsed
           "en0" " flags=8863<UP,BROADCAST,RUNNING> mtu 1500"
           [] eq_refl eq_refl).
Defined.

(** Witness of X4: eth0 is read from [ip link show] and has a slave. *)
Lemma detected_interface_is_a_candidate_witness :
  result_of (detect_ethercat_interface (Sim.stack [Sim.one_slave])
               Host.linux (start Sim.boot))
  = Returns (Some "eth0")
  /\ In "eth0" (get_network_interfaces Host.linux)
  /\ PyStr.startswith "eth0" "lo" = false
  /\ PyStr.startswith "eth0" "veth" = false.
Proof.
  split; [reflexivity|].
  exact (detected_interface_is_a_candidate
           _ _ (Sim.stack [Sim.one_slave]) Host.linux Sim.boot "eth0"
           eq_refl).
Defined.

(** Witness of X10: [ip] exits with status 1 and [ifconfig] lists lo0, en0
    and bridge0. *)
Lemma ifconfig_names_are_ethernet_witness :
  Forall (fun name =>
            PyStr.startswith name "en" || PyStr.startswith name "eth" = true
            /\ PyStr.contains ":" name = false)
         (get_network_interfaces
            (ifconfig_prints 1 ""
               {| returncode := 0;
                  stdout := "lo0: flags=8049<UP,LOOPBACK,RUNNING> mtu 16384
en0: flags=8863<UP,BROADCAST,RUNNING> mtu 1500
bridge0: flags=8863<UP,BROADCAST,RUNNING> mtu 1500" |})).
Proof.
  apply ifconfig_names_are_ethernet. discriminate.
Defined.
